(** * Blob delivery: [registry/storage/blobserver.go]

    A shallow embedding of [blobServer.ServeBlob] and
    [blobServer.ServeBlobContent], together with the properties of the
    delivery path that the design document states about them.

    The two methods write response headers and call four collaborators:
    the descriptor source ([statter]), the storage driver ([driver]), the
    range reader ([newFileReader]) and the standard HTTP helpers
    ([http.Redirect], [http.ServeContent]).  The embedding threads the
    response header map through every step and records each collaborator
    call, in program order, in a trace.  What [net/http] itself writes to
    the response inside [http.Redirect] and [http.ServeContent] is not
    part of this package: the header map is the one the server's own
    statements leave behind, and the two helpers appear as calls. *)

From Stdlib Require Import ZArith QArith Ascii String.
From stdpp Require Import base option list strings gmap pretty.

Local Open Scope Z_scope.
Local Open Scope string_scope.
Local Open Scope list_scope.

(** ** Data model *)

(** [digest.Digest] is a Go string type; [String()] is the identity. *)
Definition Digest := string.

Definition Digest_String (d : Digest) : string := d.

(** [distribution.Descriptor], the fields the server reads. *)
Record Descriptor := mkDescriptor {
  desc_MediaType : string;
  desc_Size : Z;
  desc_Digest : Digest
}.

(** Go's [error] interface.  The server distinguishes two dynamic types of
    the driver package by type switch and type assertion; every other
    dynamic type behaves alike and is kept as [OtherError]. *)
Inductive error :=
| ErrUnsupportedMethod (DriverName : string)
| PathNotFoundError (Path DriverName : string)
| OtherError (msg : string).

(** A Go pair [(T, error)] of which exactly one side is meaningful. *)
Inductive result (A : Type) :=
| Ok (a : A)
| Err (e : error).
Arguments Ok {A} a.
Arguments Err {A} e.

(** [driver.FileInfo]; only [Size()] is read. *)
Record FileInfo := mkFileInfo {
  fi_Path : string;
  fi_Size : Z
}.

(** [http.Header]: a map from header name to the list of its values.
    [net/http] canonicalises the key on both [Get] and [Set]; the names
    the server uses are pairwise distinct under canonicalisation, and the
    map is keyed here by the name the source writes. *)
Abbreviation Header := (gmap string (list string)).

Definition Header_Get (h : Header) (key : string) : string :=
  match h !! key with
  | Some (v :: _) => v
  | _ => ""
  end.

Definition Header_Set (h : Header) (key value : string) : Header :=
  <[key := [value]]> h.

(** [http.Request], the parts that are read. *)
Record Request := mkRequest {
  req_Method : string;
  req_Header : Header
}.

(** [header.AcceptSpec] of [github.com/golang/gddo/httputil/header]; the
    quality is a [float64] in the library and a rational here.  The
    server never reads it. *)
Record AcceptSpec := mkAcceptSpec {
  Value : string;
  Q : QArith_base.Q
}.

(** The options map handed to [URLFor]. *)
Abbreviation Options := (gmap string string).

(** [driver.StorageDriver], the two methods the server calls. *)
Record StorageDriver := mkStorageDriver {
  drv_Stat : string -> result FileInfo;
  drv_URLFor : string -> Options -> result string
}.

(** [fileReader] as built by [newFileReader]. *)
Record fileReader := mkFileReader {
  fr_path : string;
  fr_size : Z
}.

(** [time.Time]; the server only ever passes the zero value. *)
Inductive Time :=
| TimeZero
| TimeAt (unixNano : Z).

(** [blobServer]. *)
Record blobServer := mkBlobServer {
  driver : StorageDriver;
  statter : Digest -> result Descriptor;
  pathFn : Digest -> result string;
  redirect : bool
}.

(** Calls that leave the server, in program order. *)
Inductive Event :=
| EvStatterStat (dgst : Digest)
| EvDriverStat (path : string)
| EvDriverURLFor (path : string) (options : Options)
| EvNewFileReader (path : string) (size : Z)
| EvHttpRedirect (url : string) (code : Z)
| EvHttpServeContent (name : string) (modtime : Time) (br : fileReader)
| EvClose (br : fileReader).

(** ** [path/filepath] on a Unix host

    [filepath.Clean], [filepath.Join] and [filepath.Dir] of the Go
    standard library, for the separator [/] and no volume names.  [Clean]
    is modelled element by element: the library's write index and its
    [dotdot] mark become the stack of kept elements and the number of
    leading [..] elements that may not be removed. *)
Module filepath.

Definition IsPathSeparator (c : ascii) : bool := Ascii.eqb c "/".

(** The element before the first separator, and the elements after it. *)
Fixpoint elements (s : string) : string * list string :=
  match s with
  | EmptyString => (EmptyString, [])
  | String c s' =>
      let '(e, es) := elements s' in
      if IsPathSeparator c then (EmptyString, e :: es) else (String c e, es)
  end.

Definition split (s : string) : list string :=
  let '(e, es) := elements s in e :: es.

Definition rooted (path : string) : bool :=
  match path with
  | String c _ => IsPathSeparator c
  | EmptyString => false
  end.

(** One turn of the loop of [Clean]: [up] counts the leading [..]
    elements, [out] holds the real elements, last written first. *)
Definition step (rooted : bool) (st : nat * list string) (e : string)
  : nat * list string :=
  let '(up, out) := st in
  if decide (e = "") then st
  else if decide (e = ".") then st
  else if decide (e = "..") then
    match out with
    | _ :: out' => (up, out')
    | [] => if rooted then st else (S up, out)
    end
  else (up, e :: out).

Definition render (rooted : bool) (st : nat * list string) : string :=
  let '(up, out) := st in
  let s := (if rooted then "/" else "")
             +:+ String.concat "/" (replicate up ".." ++ reverse out) in
  if decide (s = "") then "." else s.

Definition Clean (path : string) : string :=
  if decide (path = "") then "."
  else render (rooted path) (foldl (step (rooted path)) (0%nat, []) (split path)).

Fixpoint Join (elem : list string) : string :=
  match elem with
  | [] => ""
  | e :: elem' =>
      if decide (e = "") then Join elem' else Clean (String.concat "/" elem)
  end.

(** [path[:i+1]] for [i] the index of the last separator, the empty
    string when there is none. *)
Fixpoint throughLastSeparator (path : string) : string :=
  match path with
  | EmptyString => EmptyString
  | String c path' =>
      let t := throughLastSeparator path' in
      if decide (t = "") then
        if IsPathSeparator c then String c EmptyString else EmptyString
      else String c t
  end.

Definition Dir (path : string) : string :=
  Clean (throughLastSeparator path).

End filepath.

(** ** Effects

    A computation reads and writes the response header map and appends
    the calls it makes to the trace. *)
Definition IO (A : Type) : Type := Header -> Header * list Event * A.

Global Instance IO_ret : MRet IO := fun A a h => (h, [], a).

Global Instance IO_bind : MBind IO := fun A B k m h =>
  let '(h1, t1, a) := m h in
  let '(h2, t2, b) := k a h1 in
  (h2, t1 ++ t2, b).

Definition call (ev : Event) : IO unit := fun h => (h, [ev], tt).

(** [w.Header().Set(key, value)] and [w.Header().Get(key)]. *)
Definition setHeader (key value : string) : IO unit :=
  fun h => (Header_Set h key value, [], tt).

Definition getHeader (key : string) : IO string :=
  fun h => (h, [], Header_Get h key).

(** [defer br.Close()]: the reader is closed when the enclosing function
    returns, whatever the body did. *)
Definition defer_Close {A : Type} (br : fileReader) (body : IO A) : IO A :=
  a ← body; call (EvClose br);; mret a.

(** The header map, the trace and the value a computation yields. *)
Definition headerOf {A : Type} (x : Header * list Event * A) : Header := x.1.1.
Definition traceOf {A : Type} (x : Header * list Event * A) : list Event := x.1.2.
Definition valueOf {A : Type} (x : Header * list Event * A) : A := x.2.

(** ** Constants and formatting *)

(** [time.Duration] counts nanoseconds. *)
Definition Hour : Z := 3600 * 1000000000.

Definition blobCacheControlMaxAge : Z := 365 * 24 * Hour.

(** [Duration.Seconds()]; the constant is a whole number of seconds, so
    the [float64] the library returns is exact. *)
Definition Duration_Seconds (d : Z) : Z := d / 1000000000.

Definition StatusTemporaryRedirect : Z := 307.

Definition dquote : string := String (ascii_of_nat 34) EmptyString.

(** [fmt.Sprintf(`"%s"`, d)]. *)
Definition Sprintf_quoted (d : Digest) : string := dquote +:+ d +:+ dquote.

(** [fmt.Sprintf("max-age=%.f", blobCacheControlMaxAge.Seconds())]. *)
Definition cacheControl : string :=
  "max-age=" +:+ pretty (Duration_Seconds blobCacheControlMaxAge).

(** [fmt.Sprint(size)] for an [int64]. *)
Definition Sprint (size : Z) : string := pretty size.

(** ** The server *)
Section Server.

(** [header.ParseAccept] of the gddo library and [newFileReader] of
    [filereader.go] are defined elsewhere and are parameters here. *)
Context (ParseAccept : Header -> string -> list AcceptSpec).
Context (newFileReader : StorageDriver -> string -> Z -> result fileReader).

Definition statter_Stat (bs : blobServer) (dgst : Digest)
  : IO (result Descriptor) :=
  call (EvStatterStat dgst);; mret (statter bs dgst).

Definition driver_Stat (bs : blobServer) (path : string)
  : IO (result FileInfo) :=
  call (EvDriverStat path);; mret (drv_Stat (driver bs) path).

Definition driver_URLFor (bs : blobServer) (path : string) (options : Options)
  : IO (result string) :=
  call (EvDriverURLFor path options);; mret (drv_URLFor (driver bs) path options).

Definition openFileReader (bs : blobServer) (path : string) (size : Z)
  : IO (result fileReader) :=
  call (EvNewFileReader path size);; mret (newFileReader (driver bs) path size).

Definition http_Redirect (url : string) (code : Z) : IO unit :=
  call (EvHttpRedirect url code).

Definition http_ServeContent (name : string) (modtime : Time) (br : fileReader)
  : IO unit :=
  call (EvHttpServeContent name modtime br).

(** Lines 106-121: the body of the loop once [Stat] succeeded. *)
Definition serveVariant (bs : blobServer) (dgst : Digest) (enc : AcceptSpec)
    (path : string) (stat : FileInfo) : IO (bool * option error) :=
  let size := fi_Size stat in
  br ← openFileReader bs path size;
  match br with
  | Err e => mret (false, Some e)
  | Ok br =>
      defer_Close br (
        setHeader "ETag" (Digest_String dgst);;
        setHeader "Cache-Control" cacheControl;;
        setHeader "Content-Type" "application/octet-stream";;
        setHeader "Content-Length" (Sprint size);;
        setHeader "Content-Encoding" (Value enc);;
        http_ServeContent (Digest_String dgst) TimeZero br;;
        mret (true, None))
  end.

(** Lines 96-124: the loop over the accepted encodings.  [path] is the
    variable the loop reassigns on every turn. *)
Fixpoint negotiate (bs : blobServer) (dgst : Digest)
    (accepted : list AcceptSpec) (path : string) : IO (bool * option error) :=
  match accepted with
  | [] => mret (false, None)
  | enc :: accepted' =>
      let path := filepath.Join [filepath.Dir path; "data." +:+ Value enc] in
      st ← driver_Stat bs path;
      match st with
      | Err (PathNotFoundError _ _) => negotiate bs dgst accepted' path
      | Err e => mret (false, Some e)
      | Ok stat => serveVariant bs dgst enc path stat
      end
  end.

Definition ServeBlobContent (bs : blobServer) (r : Request) (dgst : Digest)
  : IO (bool * option error) :=
  match pathFn bs dgst with
  | Err e => mret (false, Some e)
  | Ok path =>
      let accepted := ParseAccept (req_Header r) "Accept-Encoding" in
      negotiate bs dgst accepted path
  end.

(** Lines 29-34: [Some err] when [ServeBlob] returns [err] at line 32,
    [None] when it goes on to line 36. *)
Definition negotiationPhase (bs : blobServer) (r : Request) (dgst : Digest)
  : IO (option (option error)) :=
  if decide (Header_Get (req_Header r) "Docker-Transport-Compression" = "enabled")
  then
    res ← ServeBlobContent bs r dgst;
    let '(found, err) := res in
    if found || bool_decide (err ≠ None) then mret (Some err) else mret None
  else mret None.

(** Lines 46-60: [Some err] when [ServeBlob] returns [err] from inside
    the switch, [None] when it goes on to line 62. *)
Definition redirectPhase (bs : blobServer) (r : Request) (path : string)
  : IO (option (option error)) :=
  if redirect bs then
    u ← driver_URLFor bs path {["method" := req_Method r]};
    match u with
    | Ok redirectURL =>
        http_Redirect redirectURL StatusTemporaryRedirect;;
        mret (Some None)
    | Err (ErrUnsupportedMethod _) => mret None
    | Err e => mret (Some (Some e))
    end
  else mret None.

(** Lines 62-86. *)
Definition streamBlob (bs : blobServer) (desc : Descriptor) (path : string)
  : IO (option error) :=
  br ← openFileReader bs path (desc_Size desc);
  match br with
  | Err e => mret (Some e)
  | Ok br =>
      defer_Close br (
        setHeader "ETag" (Sprintf_quoted (desc_Digest desc));;
        setHeader "Cache-Control" cacheControl;;
        dcd ← getHeader "Docker-Content-Digest";
        (if decide (dcd = "")
         then setHeader "Docker-Content-Digest" (Digest_String (desc_Digest desc))
         else mret tt);;
        ct ← getHeader "Content-Type";
        (if decide (ct = "")
         then setHeader "Content-Type" (desc_MediaType desc)
         else mret tt);;
        cl ← getHeader "Content-Length";
        (if decide (cl = "")
         then setHeader "Content-Length" (Sprint (desc_Size desc))
         else mret tt);;
        http_ServeContent (Digest_String (desc_Digest desc)) TimeZero br;;
        mret None)
  end.

(** Lines 36-86: delivery from the descriptor. *)
Definition serveCanonical (bs : blobServer) (r : Request) (dgst : Digest)
  : IO (option error) :=
  d ← statter_Stat bs dgst;
  match d with
  | Err e => mret (Some e)
  | Ok desc =>
      match pathFn bs (desc_Digest desc) with
      | Err e => mret (Some e)
      | Ok path =>
          early ← redirectPhase bs r path;
          match early with
          | Some err => mret err
          | None => streamBlob bs desc path
          end
      end
  end.

Definition ServeBlob (bs : blobServer) (r : Request) (dgst : Digest)
  : IO (option error) :=
  early ← negotiationPhase bs r dgst;
  match early with
  | Some err => mret err
  | None => serveCanonical bs r dgst
  end.

End Server.

(** ** Summaries used in the statements *)

(** The values the loop of [ServeBlobContent] gives its variable [path],
    one per accepted encoding, starting from the canonical path. *)
Fixpoint candidates (path : string) (accepted : list AcceptSpec) : list string :=
  match accepted with
  | [] => []
  | enc :: accepted' =>
      let path := filepath.Join [filepath.Dir path; "data." +:+ Value enc] in
      path :: candidates path accepted'
  end.

Definition isNotFound (e : error) : bool :=
  match e with
  | PathNotFoundError _ _ => true
  | _ => false
  end.

(** The value of [path] after the loop went through [accepted]. *)
Definition lastPath (path : string) (accepted : list AcceptSpec) : string :=
  foldl (fun p enc => filepath.Join [filepath.Dir p; "data." +:+ Value enc])
    path accepted.

(** [Stat] answers with a [PathNotFoundError]. *)
Definition statNotFound (bs : blobServer) (path : string) : bool :=
  match drv_Stat (driver bs) path with
  | Err e => isNotFound e
  | Ok _ => false
  end.

(** The sibling of the canonical path for one encoding token. *)
Definition sibling (canonicalPath token : string) : string :=
  filepath.Join [filepath.Dir canonicalPath; "data." +:+ token].

(** [if w.Header().Get(key) == "" { w.Header().Set(key, value) }]. *)
Definition setIfEmpty (h : Header) (key value : string) : Header :=
  if decide (Header_Get h key = "") then Header_Set h key value else h.

(** The header map after lines 68-83. *)
Definition canonicalHeaders (desc : Descriptor) (h : Header) : Header :=
  setIfEmpty
    (setIfEmpty
       (setIfEmpty
          (Header_Set (Header_Set h "ETag" (Sprintf_quoted (desc_Digest desc)))
             "Cache-Control" cacheControl)
          "Docker-Content-Digest" (Digest_String (desc_Digest desc)))
       "Content-Type" (desc_MediaType desc))
    "Content-Length" (Sprint (desc_Size desc)).

(** The header map after lines 114-118. *)
Definition variantHeaders (dgst : Digest) (size : Z) (enc : AcceptSpec)
    (h : Header) : Header :=
  Header_Set
    (Header_Set
       (Header_Set
          (Header_Set (Header_Set h "ETag" (Digest_String dgst))
             "Cache-Control" cacheControl)
          "Content-Type" "application/octet-stream")
       "Content-Length" (Sprint size))
    "Content-Encoding" (Value enc).

(** Line 31: what [ServeBlob] does with the pair [ServeBlobContent]
    returns; [Some err] stands for [return err]. *)
Definition earlyReturn (res : bool * option error) : option (option error) :=
  let '(found, err) := res in
  if found || bool_decide (err <> None) then Some err else None.

Definition isDriverStat (ev : Event) : Prop := exists path, ev = EvDriverStat path.

(** A body was handed to [http.ServeContent]. *)
Definition served (trace : list Event) : Prop :=
  exists name modtime br, In (EvHttpServeContent name modtime br) trace.

(** The three headers an outer layer may have set. *)
Definition outerHeaders : list string :=
  ["Content-Type"; "Content-Length"; "Docker-Content-Digest"].

(** The ways one run of the negotiation loop can end. *)
Inductive NegotiateOutcome
    (newFileReader : StorageDriver -> string -> Z -> result fileReader)
    (bs : blobServer) (dgst : Digest) (accepted : list AcceptSpec) (h : Header)
  : Header * list Event * (bool * option error) -> Prop :=
| NoMatch stats :
    Forall isDriverStat stats ->
    NegotiateOutcome newFileReader bs dgst accepted h (h, stats, (false, None))
| Failed stats e :
    Forall isDriverStat stats ->
    NegotiateOutcome newFileReader bs dgst accepted h (h, stats, (false, Some e))
| OpenFailed stats path stat e :
    Forall isDriverStat stats ->
    drv_Stat (driver bs) path = Ok stat ->
    newFileReader (driver bs) path (fi_Size stat) = Err e ->
    NegotiateOutcome newFileReader bs dgst accepted h
      (h, stats ++ [EvNewFileReader path (fi_Size stat)], (false, Some e))
| Matched stats enc path stat br :
    Forall isDriverStat stats ->
    In enc accepted ->
    drv_Stat (driver bs) path = Ok stat ->
    newFileReader (driver bs) path (fi_Size stat) = Ok br ->
    NegotiateOutcome newFileReader bs dgst accepted h
      (variantHeaders dgst (fi_Size stat) enc h,
       stats ++ [EvNewFileReader path (fi_Size stat);
                 EvHttpServeContent (Digest_String dgst) TimeZero br;
                 EvClose br],
       (true, None)).

(** Events that neither open, serve from, nor close a reader. *)
Definition quiet (ev : Event) : Prop :=
  match ev with
  | EvNewFileReader _ _ | EvHttpServeContent _ _ _ | EvClose _ => False
  | _ => True
  end.

(** The ways one call of [ServeBlob] can end. *)
Inductive ServeBlobOutcome
    (ParseAccept : Header -> string -> list AcceptSpec)
    (newFileReader : StorageDriver -> string -> Z -> result fileReader)
    (bs : blobServer) (r : Request) (dgst : Digest) (h : Header)
  : Header * list Event * option error -> Prop :=
| VariantServed pre enc path stat br :
    valueOf (negotiationPhase ParseAccept newFileReader bs r dgst h) = Some None ->
    Forall quiet pre ->
    In enc (ParseAccept (req_Header r) "Accept-Encoding") ->
    drv_Stat (driver bs) path = Ok stat ->
    newFileReader (driver bs) path (fi_Size stat) = Ok br ->
    ServeBlobOutcome ParseAccept newFileReader bs r dgst h
      (variantHeaders dgst (fi_Size stat) enc h,
       pre ++ [EvNewFileReader path (fi_Size stat);
               EvHttpServeContent (Digest_String dgst) TimeZero br;
               EvClose br],
       None)
| BlobServed pre desc path br :
    valueOf (negotiationPhase ParseAccept newFileReader bs r dgst h) = None ->
    Forall quiet pre ->
    statter bs dgst = Ok desc ->
    pathFn bs (desc_Digest desc) = Ok path ->
    newFileReader (driver bs) path (desc_Size desc) = Ok br ->
    ServeBlobOutcome ParseAccept newFileReader bs r dgst h
      (canonicalHeaders desc h,
       pre ++ [EvNewFileReader path (desc_Size desc);
               EvHttpServeContent (Digest_String (desc_Digest desc)) TimeZero br;
               EvClose br],
       None)
| ReaderFailed pre path size e :
    valueOf (negotiationPhase ParseAccept newFileReader bs r dgst h) <> Some None ->
    Forall quiet pre ->
    newFileReader (driver bs) path size = Err e ->
    ServeBlobOutcome ParseAccept newFileReader bs r dgst h
      (h, pre ++ [EvNewFileReader path size], Some e)
| NothingOpened pre err :
    valueOf (negotiationPhase ParseAccept newFileReader bs r dgst h) <> Some None ->
    Forall quiet pre ->
    ServeBlobOutcome ParseAccept newFileReader bs r dgst h (h, pre, err).

(** ** Clean paths

    Predicates for reasoning about [filepath.Clean]. *)

(** The string contains no path separator. *)
Fixpoint noSeparator (s : string) : bool :=
  match s with
  | EmptyString => true
  | String c s' => negb (filepath.IsPathSeparator c) && noSeparator s'
  end.

(** An element [Clean] keeps as it is. *)
Definition realElement (e : string) : Prop :=
  e <> "" /\ e <> "." /\ e <> ".." /\ noSeparator e = true.

(** The states the loop of [Clean] can be in: real elements only, and no
    leading [..] under the root. *)
Definition cleanState (rooted : bool) (st : nat * list string) : Prop :=
  Forall realElement st.2 /\ (rooted = true -> st.1 = 0%nat).

(** ** The order the design document describes

    The document orders the accepted encodings by descending weight and
    keeps the header order among equal weights. *)
Fixpoint insertByPreference (a : AcceptSpec) (l : list AcceptSpec)
  : list AcceptSpec :=
  match l with
  | [] => [a]
  | b :: l' =>
      if Qle_bool (Q b) (Q a) then a :: b :: l' else b :: insertByPreference a l'
  end.

Definition byPreference (accepted : list AcceptSpec) : list AcceptSpec :=
  foldr insertByPreference [] accepted.

Definition variantExists (bs : blobServer) (path : string) : bool :=
  match drv_Stat (driver bs) path with
  | Ok _ => true
  | Err _ => false
  end.

(** The encoding the document selects: the first, in preference order,
    whose sibling exists. *)
Definition selectedByPreference (bs : blobServer) (canonicalPath : string)
    (accepted : list AcceptSpec) : option AcceptSpec :=
  List.find (fun enc => variantExists bs (sibling canonicalPath (Value enc)))
    (byPreference accepted).

(** ** A small registry to run the server on *)
Module Fixture.

(** A path function in the style of the registry's blob path: it
    rejects the empty digest. *)
Definition blobPath (dgst : Digest) : result string :=
  if decide (dgst = "") then Err (OtherError "invalid digest")
  else Ok ("/blobs/" +:+ dgst +:+ "/data").

(** A driver over an in-memory table of file sizes. *)
Definition memDriver (files : gmap string Z)
    (urlFor : string -> Options -> result string) : StorageDriver :=
  mkStorageDriver
    (fun path =>
       match files !! path with
       | Some size => Ok (mkFileInfo path size)
       | None => Err (PathNotFoundError path "inmemory")
       end)
    urlFor.

Definition noURL (path : string) (options : Options) : result string :=
  Err (ErrUnsupportedMethod "inmemory").

Definition signedURL (path : string) (options : Options) : result string :=
  Ok ("https://cdn.example" +:+ path).

Definition brokenURL (path : string) (options : Options) : result string :=
  Err (OtherError "backend unavailable").

(** A descriptor source that knows one blob under two spellings and
    reports the canonical one. *)
Definition aliasStatter (dgst : Digest) : result Descriptor :=
  if decide (dgst = "sha256:abc") then
    Ok (mkDescriptor "application/vnd.oci.image.layer.v1.tar" 5 "sha256:abc")
  else if decide (dgst = "tarsum.v1+sha256:fed") then
    Ok (mkDescriptor "application/vnd.oci.image.layer.v1.tar" 5 "sha256:abc")
  else Err (OtherError "blob unknown to registry").

Definition files : gmap string Z :=
  {[ "/blobs/sha256:abc/data" := 5;
     "/blobs/sha256:abc/data.gzip" := 3;
     "/blobs/sha256:abc/data.zstd" := 2;
     "/blobs/tarsum.v1+sha256:fed/data.gzip" := 3 ]}.

Definition openReader (d : StorageDriver) (path : string) (size : Z)
  : result fileReader :=
  Ok (mkFileReader path size).

(** The parsed [Accept-Encoding] list is supplied directly. *)
Definition parsed (accepted : list AcceptSpec) (h : Header) (key : string)
  : list AcceptSpec :=
  accepted.

Definition server (urlFor : string -> Options -> result string) (redirect : bool)
  : blobServer :=
  mkBlobServer (memDriver files urlFor) aliasStatter blobPath redirect.

Definition plainGet : Request := mkRequest "GET" ∅.

Definition compressedGet : Request :=
  mkRequest "GET" {[ "Docker-Transport-Compression" := ["enabled"] ]}.

Definition gzip : AcceptSpec := mkAcceptSpec "gzip" 1.
Definition zstd : AcceptSpec := mkAcceptSpec "zstd" 1.
Definition brotli : AcceptSpec := mkAcceptSpec "br" 1.

End Fixture.

(** ** Delivery from the descriptor, outcome by outcome *)

(** A redirect was issued. *)
Definition redirected (trace : list Event) : Prop :=
  exists url code, In (EvHttpRedirect url code) trace.

(** The call of [URLFor] at line 47, made only in redirect mode. *)
Definition urlForCall (bs : blobServer) (r : Request) (path : string)
  : list Event :=
  if redirect bs then [EvDriverURLFor path {["method" := req_Method r]}] else [].

(** [URLFor] did not stop the delivery: redirect mode is off, or the
    driver answered [ErrUnsupportedMethod]. *)
Definition fallsThrough (bs : blobServer) (r : Request) (path : string) : Prop :=
  redirect bs = false \/
  exists name,
    drv_URLFor (driver bs) path {["method" := req_Method r]}
    = Err (ErrUnsupportedMethod name).

Definition isUnsupportedMethod (e : error) : bool :=
  match e with
  | ErrUnsupportedMethod _ => true
  | _ => false
  end.

(** The ways lines 36-86 can end. *)
Inductive CanonicalOutcome
    (newFileReader : StorageDriver -> string -> Z -> result fileReader)
    (bs : blobServer) (r : Request) (dgst : Digest) (h : Header)
  : Header * list Event * option error -> Prop :=
| LookupFailed e :
    statter bs dgst = Err e ->
    CanonicalOutcome newFileReader bs r dgst h (h, [EvStatterStat dgst], Some e)
| PathRejected desc e :
    statter bs dgst = Ok desc ->
    pathFn bs (desc_Digest desc) = Err e ->
    CanonicalOutcome newFileReader bs r dgst h (h, [EvStatterStat dgst], Some e)
| Redirected desc path url :
    statter bs dgst = Ok desc ->
    pathFn bs (desc_Digest desc) = Ok path ->
    redirect bs = true ->
    drv_URLFor (driver bs) path {["method" := req_Method r]} = Ok url ->
    CanonicalOutcome newFileReader bs r dgst h
      (h,
       [EvStatterStat dgst;
        EvDriverURLFor path {["method" := req_Method r]};
        EvHttpRedirect url StatusTemporaryRedirect],
       None)
| RedirectFailed desc path e :
    statter bs dgst = Ok desc ->
    pathFn bs (desc_Digest desc) = Ok path ->
    redirect bs = true ->
    drv_URLFor (driver bs) path {["method" := req_Method r]} = Err e ->
    isUnsupportedMethod e = false ->
    CanonicalOutcome newFileReader bs r dgst h
      (h,
       [EvStatterStat dgst; EvDriverURLFor path {["method" := req_Method r]}],
       Some e)
| StreamOpenFailed desc path e :
    statter bs dgst = Ok desc ->
    pathFn bs (desc_Digest desc) = Ok path ->
    fallsThrough bs r path ->
    newFileReader (driver bs) path (desc_Size desc) = Err e ->
    CanonicalOutcome newFileReader bs r dgst h
      (h,
       EvStatterStat dgst :: urlForCall bs r path
         ++ [EvNewFileReader path (desc_Size desc)],
       Some e)
| Streamed desc path br :
    statter bs dgst = Ok desc ->
    pathFn bs (desc_Digest desc) = Ok path ->
    fallsThrough bs r path ->
    newFileReader (driver bs) path (desc_Size desc) = Ok br ->
    CanonicalOutcome newFileReader bs r dgst h
      (canonicalHeaders desc h,
       EvStatterStat dgst :: urlForCall bs r path
         ++ [EvNewFileReader path (desc_Size desc);
             EvHttpServeContent (Digest_String (desc_Digest desc)) TimeZero br;
             EvClose br],
       None).

(** The value lines 71-83 give a header that was empty. *)
Definition descriptorValue (desc : Descriptor) (key : string) : string :=
  if decide (key = "Docker-Content-Digest") then Digest_String (desc_Digest desc)
  else if decide (key = "Content-Type") then desc_MediaType desc
  else Sprint (desc_Size desc).


(** The calls [ServeBlobContent] can make. *)
Definition negotiationEvent (ev : Event) : Prop :=
  match ev with
  | EvStatterStat _ | EvDriverURLFor _ _ | EvHttpRedirect _ _ => False
  | _ => True
  end.

(** * Properties *)

(** ** The path functions on examples *)

Example Clean_ex1 : filepath.Clean "a//b/./c/.." = "a/b".
Proof. reflexivity. Qed.
Example Clean_ex2 : filepath.Clean "/../a/" = "/a".
Proof. reflexivity. Qed.
Example Clean_ex3 : filepath.Clean "../../a/.." = "../..".
Proof. reflexivity. Qed.
Example Clean_ex4 : filepath.Clean "a/.." = ".".
Proof. reflexivity. Qed.
Example Clean_ex5 : filepath.Clean "/" = "/".
Proof. reflexivity. Qed.
Example Dir_ex1 : filepath.Dir "/a/b/data" = "/a/b".
Proof. reflexivity. Qed.
Example Dir_ex2 : filepath.Dir "data" = ".".
Proof. reflexivity. Qed.
Example Dir_ex3 : filepath.Dir "/data" = "/".
Proof. reflexivity. Qed.
Example Join_ex1 : filepath.Join ["/a/b"; "data.gzip"] = "/a/b/data.gzip".
Proof. reflexivity. Qed.
Example Join_ex2 : filepath.Join [""; "."; "data.gzip"] = "data.gzip".
Proof. reflexivity. Qed.

(** ** The path functions in general

    [Clean] always returns the rendering of a clean state; appending an
    element without a separator to such a path and taking the directory
    gives the path back. *)
Section PathFacts.
Import filepath.

Lemma append_cons c (s t : string) : String c s +:+ t = String c (s +:+ t).
Proof. reflexivity. Qed.

Lemma append_nil_l (t : string) : "" +:+ t = t.
Proof. reflexivity. Qed.

Lemma append_nil_r (s : string) : s +:+ "" = s.
Proof. induction s as [|c s IH]; [done|]. by rewrite append_cons, IH. Qed.

Lemma append_assoc (a b c : string) : (a +:+ b) +:+ c = a +:+ (b +:+ c).
Proof. induction a as [|x a IH]; [done|]. by rewrite !append_cons, IH. Qed.

Lemma append_nonempty_l (a b : string) : a <> "" -> a +:+ b <> "".
Proof. by destruct a. Qed.

Lemma elements_noSeparator e : noSeparator e = true -> elements e = (e, []).
Proof.
  induction e as [|c e IH]; cbn; [done|]. intros [Hc He]%andb_prop.
  rewrite (IH He). by destruct (IsPathSeparator c).
Qed.

Lemma split_noSeparator e : noSeparator e = true -> split e = [e].
Proof. intros He. unfold split. by rewrite elements_noSeparator. Qed.

Lemma split_app_separator a b :
  split (a +:+ "/" +:+ b) = split a ++ split b.
Proof.
  unfold split. induction a as [|c a IH].
  - rewrite append_nil_l. change ("/" +:+ b) with (String "/" b). cbn.
    by destruct (elements b).
  - rewrite append_cons. cbn.
    destruct (elements (a +:+ "/" +:+ b)) as [e es].
    destruct (elements a) as [e' es']. destruct (elements b) as [e'' es''].
    cbn in IH. inversion IH; subst. by destruct (IsPathSeparator c).
Qed.

Lemma split_noSeparator_all s : Forall (fun e => noSeparator e = true) (split s).
Proof.
  unfold split. induction s as [|c s IH]; cbn.
  - by repeat constructor.
  - destruct (elements s) as [e es]. inversion IH as [|?? He Hes]; subst.
    destruct (IsPathSeparator c) eqn:Hc.
    + by repeat constructor.
    + constructor; [|done]. cbn. by rewrite Hc.
Qed.

Lemma concat_cons2 e e' es :
  String.concat "/" (e :: e' :: es) = e +:+ "/" +:+ String.concat "/" (e' :: es).
Proof. reflexivity. Qed.

Lemma concat_snoc es f :
  es <> [] ->
  String.concat "/" (es ++ [f]) = String.concat "/" es +:+ "/" +:+ f.
Proof.
  intros Hes. induction es as [|e [|e' es] IH]; [done|reflexivity|].
  change ((e :: e' :: es) ++ [f]) with (e :: e' :: (es ++ [f])).
  rewrite !concat_cons2. change (e' :: es ++ [f]) with ((e' :: es) ++ [f]).
  rewrite IH by done. by rewrite !append_assoc.
Qed.

Lemma split_concat es :
  es <> [] ->
  Forall (fun e => noSeparator e = true) es ->
  split (String.concat "/" es) = es.
Proof.
  intros Hne Hes. induction es as [|e [|e' es] IH]; [done|..].
  - inversion Hes; subst. by apply split_noSeparator.
  - inversion Hes as [|?? He Hes']; subst.
    rewrite concat_cons2, split_app_separator, split_noSeparator by done.
    by rewrite IH.
Qed.

Lemma step_real r up out e :
  realElement e -> step r (up, out) e = (up, e :: out).
Proof.
  intros (H1 & H2 & H3 & _). unfold step. by rewrite !decide_False by done.
Qed.

Lemma step_empty r st : step r st "" = st.
Proof. by destruct st. Qed.

Lemma foldl_step_real r up out es :
  Forall realElement es ->
  foldl (step r) (up, out) es = (up, reverse es ++ out).
Proof.
  intros Hes. revert out. induction Hes as [|e es He Hes IH]; intros out; [done|].
  cbn [foldl]. rewrite step_real by done. rewrite IH, reverse_cons.
  by rewrite <- app_assoc.
Qed.

Lemma foldl_step_dotdot up n :
  foldl (step false) (up, []) (replicate n "..") = ((up + n)%nat, []).
Proof.
  revert up. induction n as [|n IH]; intros up; cbn [replicate foldl].
  - by rewrite Nat.add_0_r.
  - change (step false (up, []) "..") with (S up, @nil string).
    rewrite IH. f_equal. lia.
Qed.

Lemma step_cleanState r st e :
  noSeparator e = true -> cleanState r st -> cleanState r (step r st e).
Proof.
  intros He [Hout Hup]. destruct st as [up out]. unfold step. cbn in Hout, Hup.
  repeat case_decide; try (by split).
  - destruct out as [|e' out].
    + by destruct r; split.
    + inversion Hout; subst. by split.
  - split; [|done]. cbn. constructor; [|done]. by repeat split.
Qed.

Lemma foldl_cleanState r st es :
  Forall (fun e => noSeparator e = true) es ->
  cleanState r st -> cleanState r (foldl (step r) st es).
Proof.
  intros Hes. revert st. induction Hes as [|e es He Hes IH]; intros st Hst; [done|].
  cbn. apply IH. by apply step_cleanState.
Qed.

Lemma render_empty : render false (0%nat, []) = ".".
Proof. reflexivity. Qed.

(** [Clean] returns the rendering of a clean state. *)
Lemma Clean_cleanState s :
  exists r st, cleanState r st /\ Clean s = render r st.
Proof.
  unfold Clean. case_decide.
  - exists false, (0%nat, []). split; [|done]. by split.
  - exists (rooted s), (foldl (step (rooted s)) (0%nat, []) (split s)).
    split; [|done]. apply foldl_cleanState; [apply split_noSeparator_all|].
    by split.
Qed.

Lemma concat_head e es :
  e <> "" -> noSeparator e = true ->
  exists c s, String.concat "/" (e :: es) = String c s /\
              IsPathSeparator c = false.
Proof.
  intros Hne He. destruct e as [|c e]; [done|]. cbn in He.
  apply andb_prop in He as [Hc _]. apply negb_true_iff in Hc.
  destruct es as [|e' es]; [by exists c, e|].
  rewrite concat_cons2, append_cons. by eexists _, _.
Qed.

Lemma realElement_dotdot_noSeparator st r :
  cleanState r st ->
  Forall (fun e => noSeparator e = true) (replicate st.1 ".." ++ reverse st.2).
Proof.
  intros [Hout _]. apply Forall_app. split.
  - apply Forall_replicate. reflexivity.
  - apply Forall_reverse. eapply Forall_impl; [exact Hout|].
    by intros e (_ & _ & _ & He).
Qed.

(** What [render] yields, case by case. *)
Lemma render_cases r st :
  cleanState r st ->
  let es := replicate st.1 ".." ++ reverse st.2 in
  (r = true /\ render r st = String "/" (String.concat "/" es)) \/
  (r = false /\ es = [] /\ render r st = ".") \/
  (r = false /\ es <> [] /\ render r st = String.concat "/" es /\
   rooted (String.concat "/" es) = false /\ String.concat "/" es <> "").
Proof.
  intros Hst es. pose proof Hst as [Hout Hup]. destruct st as [up out].
  cbn in Hout, Hup, es. unfold render.
  assert (Hes : es = replicate up ".." ++ reverse out) by done.
  clearbody es. rewrite <- Hes. destruct r.
  - left. split; [done|]. rewrite append_cons, append_nil_l.
    by rewrite decide_False by done.
  - right. rewrite append_nil_l. destruct es as [|e es'].
    + left. by repeat split.
    + right. split; [done|]. split; [done|].
      assert (He : e <> "" /\ noSeparator e = true).
      { destruct up as [|up]; cbn in Hes.
        - assert (Hin : In e (reverse out)) by (rewrite <- Hes; by left).
          apply list_elem_of_In in Hin. rewrite elem_of_reverse in Hin.
          rewrite Forall_forall in Hout. by destruct (Hout _ Hin) as (?&?&?&?).
        - inversion Hes; subst. by split. }
      destruct He as [Hne He].
      destruct (concat_head e es' Hne He) as (c & s & Heq & Hc).
      rewrite Heq. rewrite decide_False by done. by repeat split.
Qed.

Lemma render_nonempty r st : cleanState r st -> render r st <> "".
Proof.
  intros Hst. destruct (render_cases r st Hst)
    as [[_ ->]|[(_ & _ & ->)|(_ & _ & -> & _ & Hne)]]; done.
Qed.

Lemma render_rooted r st : cleanState r st -> rooted (render r st) = r.
Proof.
  intros Hst. destruct (render_cases r st Hst)
    as [[-> ->]|[(-> & _ & ->)|(-> & _ & -> & Hr & _)]]; done.
Qed.

(** Cleaning a rendering gives the state back. *)
Lemma foldl_step_render r st :
  cleanState r st ->
  foldl (step r) (0%nat, []) (split (render r st)) = st.
Proof.
  intros Hst. pose proof (realElement_dotdot_noSeparator _ _ Hst) as Hns.
  pose proof Hst as [Hout Hup]. destruct st as [up out].
  cbn [fst snd] in Hout, Hup, Hns.
  assert (Hfold : forall r', (r' = true -> up = 0%nat) ->
            foldl (step r') (0%nat, []) (replicate up ".." ++ reverse out)
            = (up, out)).
  { intros r' Hr'. rewrite foldl_app. destruct r'.
    - rewrite (Hr' eq_refl). cbn [replicate foldl].
      rewrite foldl_step_real by by apply Forall_reverse.
      by rewrite reverse_involutive, app_nil_r.
    - rewrite foldl_step_dotdot. cbn.
      rewrite foldl_step_real by by apply Forall_reverse.
      by rewrite reverse_involutive, app_nil_r. }
  destruct (render_cases r (up, out) Hst)
    as [[-> ->]|[(-> & Hnil & ->)|(-> & Hne & -> & _)]]; cbn [fst snd] in *.
  - change (String "/" ?s) with ("" +:+ "/" +:+ s).
    rewrite split_app_separator. change (split "") with [""].
    cbn [app foldl]. rewrite step_empty.
    destruct (replicate up ".." ++ reverse out) as [|e es] eqn:Hes.
    + cbn. rewrite <- (Hfold true Hup). reflexivity.
    + rewrite split_concat by done. by apply Hfold.
  - rewrite <- (Hfold false) by done. rewrite Hnil. reflexivity.
  - rewrite split_concat by done. by apply Hfold.
Qed.

Lemma rooted_app (a b : string) : a <> "" -> rooted (a +:+ b) = rooted a.
Proof. by destruct a. Qed.

(** Appending one real element to a cleaned path and cleaning again. *)
Lemma Clean_append_element r st f :
  cleanState r st -> realElement f ->
  Clean (render r st +:+ "/" +:+ f) = render r (st.1, f :: st.2).
Proof.
  intros Hst Hf. pose proof (render_nonempty r st Hst) as Hne.
  unfold Clean. rewrite decide_False by by apply append_nonempty_l.
  rewrite rooted_app, render_rooted by done.
  rewrite split_app_separator, foldl_app, foldl_step_render by done.
  destruct Hf as (?&?&?&Hns). rewrite split_noSeparator by done.
  destruct st as [up out]. cbn [foldl fst snd]. by rewrite step_real.
Qed.

Lemma throughLastSeparator_noSeparator f :
  noSeparator f = true -> throughLastSeparator f = "".
Proof.
  induction f as [|c f IH]; [done|]. cbn. intros [Hc Hf]%andb_prop.
  rewrite (IH Hf). apply negb_true_iff in Hc. by rewrite Hc.
Qed.

Lemma throughLastSeparator_app a f :
  noSeparator f = true ->
  throughLastSeparator (a +:+ "/" +:+ f) = a +:+ "/".
Proof.
  intros Hf. induction a as [|c a IH].
  - rewrite !append_nil_l. change ("/" +:+ f) with (String "/" f).
    cbn. by rewrite throughLastSeparator_noSeparator.
  - rewrite (append_cons c a). cbn [throughLastSeparator]. rewrite IH.
    rewrite decide_False; [done|]. by destruct a.
Qed.

Lemma Clean_trailing_separator r st :
  cleanState r st -> Clean (render r st +:+ "/") = render r st.
Proof.
  intros Hst. pose proof (render_nonempty r st Hst) as Hne.
  unfold Clean. rewrite decide_False by by apply append_nonempty_l.
  rewrite rooted_app, render_rooted by done.
  rewrite <- (append_nil_r "/"), split_app_separator, foldl_app.
  rewrite foldl_step_render by done. cbn. by rewrite step_empty.
Qed.

(** The directory of a cleaned path that ends in a real element. *)
Lemma Dir_render r up out f :
  cleanState r (up, out) -> realElement f ->
  Dir (render r (up, f :: out)) = render r (up, out).
Proof.
  intros Hst Hf. pose proof Hf as (Hf1 & Hf2 & Hf3 & Hns).
  assert (Hst' : cleanState r (up, f :: out)).
  { destruct Hst as [Hout Hup]. split; [by constructor|done]. }
  unfold Dir.
  destruct (render_cases r _ Hst')
    as [[-> Hr]|[(-> & Hnil & _)|(-> & _ & Hr & _)]]; cbn [fst snd] in *.
  - rewrite Hr. pose proof (proj2 Hst eq_refl) as Hup. cbn [fst] in Hup.
    subst up. cbn [replicate app] in *. rewrite reverse_cons.
    destruct (reverse out) as [|e es] eqn:Hrev.
    + cbn [app String.concat].
      change (String "/" f) with ("" +:+ "/" +:+ f).
      rewrite throughLastSeparator_app by done.
      apply (f_equal reverse) in Hrev. rewrite reverse_involutive in Hrev.
      by subst out.
    + rewrite concat_snoc by done.
      change (String "/" (?a +:+ "/" +:+ f)) with (String "/" a +:+ "/" +:+ f).
      rewrite throughLastSeparator_app by done.
      assert (Hc : cleanState true (0%nat, out)) by done.
      destruct (render_cases true _ Hc) as [[_ Hr']|[(?&_)|(?&_)]]; try done.
      cbn [fst snd replicate app] in Hr'. rewrite Hrev in Hr'.
      rewrite <- Hr'. by apply Clean_trailing_separator.
  - rewrite reverse_cons in Hnil. by destruct (replicate up ".."), (reverse out).
  - rewrite Hr. rewrite reverse_cons, app_assoc.
    destruct (replicate up ".." ++ reverse out) as [|e es] eqn:Hes.
    + cbn [app String.concat].
      rewrite throughLastSeparator_noSeparator by done.
      destruct (render_cases false _ Hst) as [[? _]|[(_&_&->)|(_&Hne&_)]]; done.
    + rewrite concat_snoc by done.
      rewrite throughLastSeparator_app by done.
      destruct (render_cases false _ Hst) as [[? _]|[(_&Hnil&_)|(_&_&Hr'&_)]];
        try done; cbn [fst snd] in *.
      * by rewrite Hes in Hnil.
      * rewrite Hes in Hr'. rewrite <- Hr'. by apply Clean_trailing_separator.
Qed.

Lemma data_token_real t : noSeparator t = true -> realElement ("data." +:+ t).
Proof. intros Ht. by repeat split. Qed.

(** The directory of a sibling built from a token without a separator is
    the directory the sibling was built from. *)
Lemma Dir_sibling path t :
  noSeparator t = true -> Dir (sibling path t) = Dir path.
Proof.
  intros Ht. unfold sibling, Dir at 2 3.
  destruct (Clean_cleanState (throughLastSeparator path)) as (r & st & Hst & ->).
  pose proof (render_nonempty r st Hst) as Hne.
  cbn [Join]. rewrite decide_False by done.
  change (String.concat "/" [render r st; "data." +:+ t])
    with (render r st +:+ "/" +:+ "data." +:+ t).
  rewrite Clean_append_element by (done || by apply data_token_real).
  destruct st as [up out]. apply Dir_render; [done|by apply data_token_real].
Qed.
End PathFacts.

(** For tokens without a separator the loop's paths are the siblings of
    the canonical path. *)
Lemma candidates_siblings path accepted :
  Forall (fun enc => noSeparator (Value enc) = true) accepted ->
  candidates path accepted = map (fun enc => sibling path (Value enc)) accepted.
Proof.
  intros Hacc. revert path.
  induction Hacc as [|enc accepted Henc Hacc IH]; intros path; [done|].
  cbn [candidates map]. fold (sibling path (Value enc)). f_equal.
  rewrite IH. apply map_ext. intros enc'. unfold sibling at 1 3.
  by rewrite Dir_sibling.
Qed.

(** So the directory the loop works in never changes. *)
Lemma Dir_lastPath path accepted :
  Forall (fun enc => noSeparator (Value enc) = true) accepted ->
  filepath.Dir (lastPath path accepted) = filepath.Dir path.
Proof.
  intros Hacc. revert path.
  induction Hacc as [|enc accepted Henc Hacc IH]; intros path; [done|].
  change (lastPath path (enc :: accepted))
    with (lastPath (sibling path (Value enc)) accepted).
  rewrite IH. by apply Dir_sibling.
Qed.

(** ** Running the server, step by step *)

Ltac io_unfold :=
  unfold defer_Close, setHeader, getHeader, call, mbind, mret, IO_bind, IO_ret.

Lemma Header_Set_lookup_ne (h : Header) key key' value :
  key <> key' -> Header_Set h key value !! key' = h !! key'.
Proof. intros. unfold Header_Set. by rewrite lookup_insert_ne. Qed.

Lemma Header_Set_lookup_eq (h : Header) key value :
  Header_Set h key value !! key = Some [value].
Proof. unfold Header_Set. by rewrite lookup_insert_eq. Qed.

Lemma Header_Get_Set_eq (h : Header) key value :
  Header_Get (Header_Set h key value) key = value.
Proof. unfold Header_Get. by rewrite Header_Set_lookup_eq. Qed.

Lemma Header_Get_Set_ne (h : Header) key key' value :
  key <> key' -> Header_Get (Header_Set h key value) key' = Header_Get h key'.
Proof. intros. unfold Header_Get. by rewrite Header_Set_lookup_ne. Qed.

Lemma setIfEmpty_lookup_ne (h : Header) key key' value :
  key <> key' -> setIfEmpty h key value !! key' = h !! key'.
Proof.
  intros. unfold setIfEmpty. case_decide; [by apply Header_Set_lookup_ne|done].
Qed.

Lemma setIfEmpty_lookup_set (h : Header) key value :
  Header_Get h key <> "" -> setIfEmpty h key value = h.
Proof. intros. unfold setIfEmpty. by case_decide. Qed.

Lemma setIfEmpty_Get_ne (h : Header) key key' value :
  key <> key' -> Header_Get (setIfEmpty h key value) key' = Header_Get h key'.
Proof. intros. unfold Header_Get. by rewrite setIfEmpty_lookup_ne. Qed.

Section Facts.
Context (ParseAccept : Header -> string -> list AcceptSpec).
Context (newFileReader : StorageDriver -> string -> Z -> result fileReader).

Lemma streamBlob_run bs desc path h :
  streamBlob newFileReader bs desc path h =
    match newFileReader (driver bs) path (desc_Size desc) with
    | Ok br =>
        (canonicalHeaders desc h,
         [EvNewFileReader path (desc_Size desc);
          EvHttpServeContent (Digest_String (desc_Digest desc)) TimeZero br;
          EvClose br],
         None)
    | Err e => (h, [EvNewFileReader path (desc_Size desc)], Some e)
    end.
Proof.
  unfold streamBlob, openFileReader, http_ServeContent, canonicalHeaders, setIfEmpty.
  io_unfold. destruct (newFileReader _ _ _) as [br|e]; [|reflexivity].
  repeat case_decide; reflexivity.
Qed.

Lemma serveVariant_run bs dgst enc path stat h :
  serveVariant newFileReader bs dgst enc path stat h =
    match newFileReader (driver bs) path (fi_Size stat) with
    | Ok br =>
        (variantHeaders dgst (fi_Size stat) enc h,
         [EvNewFileReader path (fi_Size stat);
          EvHttpServeContent (Digest_String dgst) TimeZero br;
          EvClose br],
         (true, None))
    | Err e => (h, [EvNewFileReader path (fi_Size stat)], (false, Some e))
    end.
Proof.
  unfold serveVariant, openFileReader, http_ServeContent, variantHeaders.
  io_unfold. destruct (newFileReader _ _ _) as [br|e]; reflexivity.
Qed.

Lemma redirectPhase_run bs r path h :
  redirectPhase bs r path h =
    if redirect bs then
      let options : Options := {["method" := req_Method r]} in
      match drv_URLFor (driver bs) path options with
      | Ok url =>
          (h, [EvDriverURLFor path options;
               EvHttpRedirect url StatusTemporaryRedirect], Some None)
      | Err (ErrUnsupportedMethod _) => (h, [EvDriverURLFor path options], None)
      | Err e => (h, [EvDriverURLFor path options], Some (Some e))
      end
    else (h, [], None).
Proof.
  unfold redirectPhase, driver_URLFor, http_Redirect. io_unfold.
  destruct (redirect bs); [|reflexivity].
  destruct (drv_URLFor _ _ _) as [url|[]]; reflexivity.
Qed.

Lemma negotiate_cons bs dgst enc accepted path h :
  negotiate newFileReader bs dgst (enc :: accepted) path h =
    let p := sibling path (Value enc) in
    match drv_Stat (driver bs) p with
    | Ok stat =>
        let out := serveVariant newFileReader bs dgst enc p stat h in
        (headerOf out, EvDriverStat p :: traceOf out, valueOf out)
    | Err e =>
        if isNotFound e then
          let out := negotiate newFileReader bs dgst accepted p h in
          (headerOf out, EvDriverStat p :: traceOf out, valueOf out)
        else (h, [EvDriverStat p], (false, Some e))
    end.
Proof.
  cbn [negotiate]. unfold driver_Stat, sibling. io_unfold.
  destruct (drv_Stat _ _) as [stat|[]]; cbn;
    try reflexivity.
  - by destruct (serveVariant _ _ _ _ _ _ _) as [[??]?].
  - by destruct (negotiate _ _ _ _ _ _) as [[??]?].
Qed.

Lemma negotiate_outcome bs dgst accepted path h :
  NegotiateOutcome newFileReader bs dgst accepted h
    (negotiate newFileReader bs dgst accepted path h).
Proof.
  revert path. induction accepted as [|enc accepted IH]; intros path.
  - apply (NoMatch _ _ _ _ _ []). constructor.
  - rewrite negotiate_cons. cbv zeta.
    destruct (drv_Stat _ _) as [stat|e] eqn:Hstat.
    + rewrite serveVariant_run.
      destruct (newFileReader _ _ _) as [br|e] eqn:Hopen; cbn.
      * apply (Matched _ _ _ _ _ [EvDriverStat _] enc _ stat br); auto.
        -- repeat constructor. by eexists.
        -- by left.
      * apply (OpenFailed _ _ _ _ _ [EvDriverStat _] _ stat e); auto.
        repeat constructor. by eexists.
    + destruct (isNotFound e) eqn:Hnf.
      * specialize (IH (sibling path (Value enc))).
        inversion IH as [stats Hs Heq|stats e' Hs Heq
                        |stats p stat e' Hs Hst Hop Heq
                        |stats enc' p stat br Hs Hin Hst Hop Heq]; cbn.
        -- apply (NoMatch _ _ _ _ _ (_ :: stats)). constructor; [by eexists|done].
        -- apply (Failed _ _ _ _ _ (_ :: stats)).
           constructor; [by eexists|done].
        -- apply (OpenFailed _ _ _ _ _ (_ :: stats) p stat e'); [|done..].
           constructor; [by eexists|done].
        -- apply (Matched _ _ _ _ _ (_ :: stats) enc' p stat br); [|by right|done..].
           constructor; [by eexists|done].
      * apply (Failed _ _ _ _ _ [EvDriverStat _]).
        repeat constructor. by eexists.
Qed.

Lemma ServeBlobContent_run bs r dgst h :
  ServeBlobContent ParseAccept newFileReader bs r dgst h =
    match pathFn bs dgst with
    | Err e => (h, [], (false, Some e))
    | Ok path =>
        negotiate newFileReader bs dgst
          (ParseAccept (req_Header r) "Accept-Encoding") path h
    end.
Proof. unfold ServeBlobContent. by destruct (pathFn bs dgst). Qed.

Lemma negotiationPhase_run bs r dgst h :
  negotiationPhase ParseAccept newFileReader bs r dgst h =
    if decide (Header_Get (req_Header r) "Docker-Transport-Compression" = "enabled")
    then
      let out := ServeBlobContent ParseAccept newFileReader bs r dgst h in
      (headerOf out, traceOf out, earlyReturn (valueOf out))
    else (h, [], None).
Proof.
  unfold negotiationPhase, earlyReturn. case_decide; [|reflexivity].
  io_unfold. destruct (ServeBlobContent _ _ _ _ _ _) as [[h1 t1] [found err]].
  cbn. destruct (found || _); cbn; by rewrite app_nil_r.
Qed.

Lemma serveCanonical_run bs r dgst h :
  serveCanonical newFileReader bs r dgst h =
    match statter bs dgst with
    | Err e => (h, [EvStatterStat dgst], Some e)
    | Ok desc =>
        match pathFn bs (desc_Digest desc) with
        | Err e => (h, [EvStatterStat dgst], Some e)
        | Ok path =>
            let o1 := redirectPhase bs r path h in
            match valueOf o1 with
            | Some err => (headerOf o1, EvStatterStat dgst :: traceOf o1, err)
            | None =>
                let o2 := streamBlob newFileReader bs desc path (headerOf o1) in
                (headerOf o2, EvStatterStat dgst :: traceOf o1 ++ traceOf o2,
                 valueOf o2)
            end
        end
    end.
Proof.
  unfold serveCanonical, statter_Stat. io_unfold.
  destruct (statter bs dgst) as [desc|e]; [|reflexivity].
  destruct (pathFn bs _) as [path|e]; [|reflexivity]. cbn.
  destruct (redirectPhase _ _ _ _) as [[h1 t1] [err|]]; cbn.
  - by rewrite app_nil_r.
  - by destruct (streamBlob _ _ _ _ _) as [[h2 t2] v].
Qed.

Lemma ServeBlob_run bs r dgst h :
  ServeBlob ParseAccept newFileReader bs r dgst h =
    let o1 := negotiationPhase ParseAccept newFileReader bs r dgst h in
    match valueOf o1 with
    | Some err => (headerOf o1, traceOf o1, err)
    | None =>
        let o2 := serveCanonical newFileReader bs r dgst (headerOf o1) in
        (headerOf o2, traceOf o1 ++ traceOf o2, valueOf o2)
    end.
Proof.
  unfold ServeBlob. io_unfold.
  destruct (negotiationPhase _ _ _ _ _ _) as [[h1 t1] [err|]]; cbn.
  - by rewrite app_nil_r.
  - by destruct (serveCanonical _ _ _ _ _) as [[h2 t2] v].
Qed.

Lemma candidates_app path l1 l2 :
  candidates path (l1 ++ l2) =
    candidates path l1 ++ candidates (lastPath path l1) l2.
Proof.
  revert path. induction l1 as [|enc l1 IH]; intros path; [reflexivity|].
  cbn. by rewrite IH.
Qed.

Lemma lastPath_snoc path l enc :
  lastPath path (l ++ [enc]) = sibling (lastPath path l) (Value enc).
Proof. unfold lastPath. by rewrite foldl_app. Qed.

Lemma candidates_snoc path l enc :
  candidates path (l ++ [enc]) = candidates path l ++ [lastPath path (l ++ [enc])].
Proof. rewrite candidates_app, lastPath_snoc. reflexivity. Qed.

(** Candidates whose [Stat] reports not-found are passed over. *)
Lemma negotiate_skip bs dgst pre rest path h :
  forallb (statNotFound bs) (candidates path pre) = true ->
  negotiate newFileReader bs dgst (pre ++ rest) path h =
    let out := negotiate newFileReader bs dgst rest (lastPath path pre) h in
    (headerOf out, map EvDriverStat (candidates path pre) ++ traceOf out,
     valueOf out).
Proof.
  revert path. induction pre as [|enc pre IH]; intros path Hnf.
  - cbn. by destruct (negotiate _ _ _ _ _ _) as [[??]?].
  - cbn [candidates forallb] in Hnf. apply andb_prop in Hnf as [Hp Hpre].
    rewrite <- app_comm_cons, negotiate_cons. cbv zeta.
    unfold statNotFound in Hp. fold (sibling path (Value enc)) in Hp, Hpre.
    destruct (drv_Stat _ _) as [stat|e]; [discriminate|]. rewrite Hp.
    rewrite (IH _ Hpre). reflexivity.
Qed.

(** C4: with redirect mode enabled, once negotiation has not answered
    the request and the descriptor and its path are resolved, the
    URL-generation call has three outcomes.  On a URL, [ServeBlob] issues
    a 307 redirect to it and returns [nil] without opening a reader.  On
    [ErrUnsupportedMethod], it goes on to stream: it opens the reader and
    returns [nil] after serving, or the reader's own error; the
    unsupported-method error is not returned.  On any other error, it
    returns that error and opens no reader. *)
Theorem C4_redirect_three_outcomes bs r dgst h desc path :
  valueOf (negotiationPhase ParseAccept newFileReader bs r dgst h) = None ->
  statter bs dgst = Ok desc ->
  pathFn bs (desc_Digest desc) = Ok path ->
  redirect bs = true ->
  let o1 := negotiationPhase ParseAccept newFileReader bs r dgst h in
  let options : Options := {["method" := req_Method r]} in
  let out := ServeBlob ParseAccept newFileReader bs r dgst h in
  match drv_URLFor (driver bs) path options with
  | Ok url =>
      out = (headerOf o1,
             traceOf o1 ++ [EvStatterStat dgst; EvDriverURLFor path options;
                            EvHttpRedirect url StatusTemporaryRedirect],
             None)
  | Err (ErrUnsupportedMethod _) =>
      match newFileReader (driver bs) path (desc_Size desc) with
      | Ok br =>
          out = (canonicalHeaders desc (headerOf o1),
                 traceOf o1 ++ [EvStatterStat dgst; EvDriverURLFor path options;
                                EvNewFileReader path (desc_Size desc);
                                EvHttpServeContent (desc_Digest desc) TimeZero br;
                                EvClose br],
                 None)
      | Err e' =>
          out = (headerOf o1,
                 traceOf o1 ++ [EvStatterStat dgst; EvDriverURLFor path options;
                                EvNewFileReader path (desc_Size desc)],
                 Some e')
      end
  | Err e =>
      out = (headerOf o1,
             traceOf o1 ++ [EvStatterStat dgst; EvDriverURLFor path options],
             Some e)
  end.
Proof.
  intros Hneg Hstat Hpath Hredirect o1 options out. subst o1 out.
  rewrite ServeBlob_run. cbv zeta. rewrite Hneg.
  rewrite serveCanonical_run, Hstat, Hpath, redirectPhase_run, Hredirect.
  cbv zeta. fold options.
  destruct (drv_URLFor _ _ _) as [url|[name|p name|msg]]; cbn; try reflexivity.
  rewrite streamBlob_run.
  destruct (newFileReader _ _ _) as [br|e']; reflexivity.
Qed.

(** C5: when every earlier candidate was reported not found, a candidate
    whose [Stat] reports path-not-found is passed over and negotiation
    goes on with the remaining encodings, without an error of its own;
    a candidate whose [Stat] fails with any other error ends the
    negotiation at once: [ServeBlobContent] returns that error after this
    [Stat], and [ServeBlob] returns it too, without going on to the
    descriptor lookup. *)
Theorem C5_stat_not_found_continues_other_error_aborts
    bs r dgst h canonical pre enc post e :
  pathFn bs dgst = Ok canonical ->
  ParseAccept (req_Header r) "Accept-Encoding" = pre ++ enc :: post ->
  forallb (statNotFound bs) (candidates canonical pre) = true ->
  let p := filepath.Join
             [filepath.Dir (lastPath canonical pre); "data." +:+ Value enc] in
  drv_Stat (driver bs) p = Err e ->
  let stats := map EvDriverStat (candidates canonical pre ++ [p]) in
  if isNotFound e then
    let rest := negotiate newFileReader bs dgst post p h in
    ServeBlobContent ParseAccept newFileReader bs r dgst h =
      (headerOf rest, stats ++ traceOf rest, valueOf rest)
  else
    ServeBlobContent ParseAccept newFileReader bs r dgst h =
      (h, stats, (false, Some e)) /\
    (Header_Get (req_Header r) "Docker-Transport-Compression" = "enabled" ->
     ServeBlob ParseAccept newFileReader bs r dgst h = (h, stats, Some e)).
Proof.
  intros Hpath Hacc Hpre p Hstat stats.
  assert (Hrun : ServeBlobContent ParseAccept newFileReader bs r dgst h =
            let out := negotiate newFileReader bs dgst (enc :: post)
                         (lastPath canonical pre) h in
            (headerOf out, map EvDriverStat (candidates canonical pre) ++ traceOf out,
             valueOf out)).
  { rewrite ServeBlobContent_run, Hpath, Hacc. by apply negotiate_skip. }
  rewrite negotiate_cons in Hrun. cbv zeta in Hrun.
  unfold sibling in Hrun. fold p in Hrun. rewrite Hstat in Hrun.
  subst stats. rewrite map_app. cbn [map].
  destruct (isNotFound e) eqn:Hnf.
  - cbv zeta. rewrite Hrun. cbn. by rewrite <- app_assoc.
  - split; [exact Hrun|]. intros Hen.
    rewrite ServeBlob_run, negotiationPhase_run. cbv zeta.
    rewrite decide_True by exact Hen. rewrite Hrun. reflexivity.
Qed.

Lemma isDriverStat_quiet stats : Forall isDriverStat stats -> Forall quiet stats.
Proof. intros Hs. eapply Forall_impl; [exact Hs|]. by intros ev [p ->]. Qed.

Lemma ServeBlobContent_outcome bs r dgst h :
  NegotiateOutcome newFileReader bs dgst
    (ParseAccept (req_Header r) "Accept-Encoding") h
    (ServeBlobContent ParseAccept newFileReader bs r dgst h).
Proof.
  rewrite ServeBlobContent_run. destruct (pathFn bs dgst) as [path|e].
  - apply negotiate_outcome.
  - apply (Failed _ _ _ _ _ []). constructor.
Qed.

(** Delivery from the descriptor, after a quiet prefix. *)
Lemma serveCanonical_outcome bs r dgst h pre :
  valueOf (negotiationPhase ParseAccept newFileReader bs r dgst h) = None ->
  Forall quiet pre ->
  let o2 := serveCanonical newFileReader bs r dgst h in
  ServeBlobOutcome ParseAccept newFileReader bs r dgst h
    (headerOf o2, pre ++ traceOf o2, valueOf o2).
Proof.
  intros Hneg Hpre o2. subst o2.
  assert (Hneg' : valueOf (negotiationPhase ParseAccept newFileReader bs r dgst h)
                  <> Some None) by (by rewrite Hneg).
  assert (Hq : forall evs, Forall quiet evs -> Forall quiet (pre ++ evs))
    by (intros; by apply Forall_app).
  rewrite serveCanonical_run.
  destruct (statter bs dgst) as [desc|e] eqn:Hstat;
    [|apply NothingOpened; [done|apply Hq; by repeat constructor]].
  destruct (pathFn bs _) as [path|e] eqn:Hpath;
    [|apply NothingOpened; [done|apply Hq; by repeat constructor]].
  rewrite redirectPhase_run. cbv zeta.
  assert (Hstream : forall t1, Forall quiet t1 ->
    let o3 := streamBlob newFileReader bs desc path h in
    ServeBlobOutcome ParseAccept newFileReader bs r dgst h
      (headerOf o3, pre ++ EvStatterStat dgst :: t1 ++ traceOf o3, valueOf o3)).
  { intros t1 Ht1. cbv zeta. rewrite streamBlob_run.
    destruct (newFileReader _ _ _) as [br|e] eqn:Hopen; cbn.
    - replace (pre ++ EvStatterStat dgst :: t1 ++ _)
        with ((pre ++ EvStatterStat dgst :: t1) ++
              [EvNewFileReader path (desc_Size desc);
               EvHttpServeContent (Digest_String (desc_Digest desc)) TimeZero br;
               EvClose br])
        by (by rewrite <- app_assoc).
      apply BlobServed; try done. apply Hq. by constructor.
    - replace (pre ++ EvStatterStat dgst :: t1 ++ _)
        with ((pre ++ EvStatterStat dgst :: t1) ++
              [EvNewFileReader path (desc_Size desc)])
        by (by rewrite <- app_assoc).
      apply ReaderFailed; try done. apply Hq. by constructor. }
  destruct (redirect bs).
  - destruct (drv_URLFor _ _ _) as [url|[name|p name|msg]]; cbn.
    + apply NothingOpened; [done|apply Hq; by repeat constructor].
    + apply (Hstream [_]). by repeat constructor.
    + apply NothingOpened; [done|apply Hq; by repeat constructor].
    + apply NothingOpened; [done|apply Hq; by repeat constructor].
  - apply (Hstream []). constructor.
Qed.

(** Every call of [ServeBlob] ends in one of the four ways. *)
Lemma ServeBlob_outcome bs r dgst h :
  ServeBlobOutcome ParseAccept newFileReader bs r dgst h
    (ServeBlob ParseAccept newFileReader bs r dgst h).
Proof.
  rewrite ServeBlob_run. cbv zeta.
  pose proof (negotiationPhase_run bs r dgst h) as Hrun.
  destruct (decide (Header_Get (req_Header r) "Docker-Transport-Compression"
                    = "enabled")) as [Hen|Hen].
  - cbv zeta in Hrun.
    pose proof (ServeBlobContent_outcome bs r dgst h) as Hout.
    inversion Hout as [stats Hs Heq|stats e Hs Heq
                      |stats p stat e Hs Hst Hop Heq
                      |stats enc p stat br Hs Hin Hst Hop Heq];
      rewrite <- Heq in Hrun; cbn in Hrun.
    + rewrite Hrun. cbn. apply serveCanonical_outcome.
      * by rewrite Hrun.
      * by apply isDriverStat_quiet.
    + rewrite Hrun. cbn. apply NothingOpened.
      * by rewrite Hrun.
      * by apply isDriverStat_quiet.
    + rewrite Hrun. cbn. apply (ReaderFailed _ _ _ _ _ _ stats); try done.
      * by rewrite Hrun.
      * by apply isDriverStat_quiet.
    + rewrite Hrun. cbn. apply (VariantServed _ _ _ _ _ _ stats enc p stat br); try done.
      * by rewrite Hrun.
      * by apply isDriverStat_quiet.
  - rewrite Hrun. cbn.
    apply (serveCanonical_outcome bs r dgst h []); [by rewrite Hrun|constructor].
Qed.

Lemma quiet_not_served pre : Forall quiet pre -> ~ served pre.
Proof.
  intros Hq (name & modtime & br & Hin).
  rewrite List.Forall_forall in Hq. exact (Hq _ Hin).
Qed.

Lemma served_tail_inv pre path size d br name modtime br' :
  Forall quiet pre ->
  In (EvHttpServeContent name modtime br')
     (pre ++ [EvNewFileReader path size; EvHttpServeContent d TimeZero br;
              EvClose br]) ->
  name = d /\ modtime = TimeZero /\ br' = br.
Proof.
  intros Hq Hin. apply in_app_or in Hin as [Hin|Hin].
  - rewrite List.Forall_forall in Hq. destruct (Hq _ Hin).
  - cbn in Hin. destruct Hin as [Heq|[Heq|[Heq|[]]]]; try discriminate.
    by inversion Heq.
Qed.

Lemma opened_tail_inv pre path size evs path' size' :
  Forall quiet pre ->
  Forall (fun ev => forall p s, ev <> EvNewFileReader p s) evs ->
  In (EvNewFileReader path' size') (pre ++ EvNewFileReader path size :: evs) ->
  path' = path /\ size' = size.
Proof.
  intros Hq Hevs Hin. apply in_app_or in Hin as [Hin|[Heq|Hin]].
  - rewrite List.Forall_forall in Hq. destruct (Hq _ Hin).
  - by inversion Heq.
  - rewrite List.Forall_forall in Hevs. by destruct (Hevs _ Hin path' size').
Qed.

Lemma setIfEmpty_lookup_keep (h : Header) key key' value :
  Header_Get h key <> "" -> setIfEmpty h key' value !! key = h !! key.
Proof.
  intros Hset. destruct (decide (key' = key)) as [->|Hne].
  - by rewrite setIfEmpty_lookup_set.
  - by apply setIfEmpty_lookup_ne.
Qed.

Lemma Header_Get_lookup (h h' : Header) key :
  h' !! key = h !! key -> Header_Get h' key = Header_Get h key.
Proof. unfold Header_Get. by intros ->. Qed.

Lemma canonicalHeaders_ETag desc h :
  canonicalHeaders desc h !! "ETag" = Some [Sprintf_quoted (desc_Digest desc)].
Proof.
  unfold canonicalHeaders.
  rewrite !setIfEmpty_lookup_ne by done.
  rewrite Header_Set_lookup_ne by done. apply Header_Set_lookup_eq.
Qed.

Lemma variantHeaders_ETag dgst size enc h :
  variantHeaders dgst size enc h !! "ETag" = Some [Digest_String dgst].
Proof.
  unfold variantHeaders.
  rewrite !Header_Set_lookup_ne by done. apply Header_Set_lookup_eq.
Qed.

Lemma canonicalHeaders_keep desc h key :
  In key outerHeaders ->
  Header_Get h key <> "" ->
  canonicalHeaders desc h !! key = h !! key.
Proof.
  intros Hkey Hset. unfold canonicalHeaders.
  set (h0 := Header_Set (Header_Set h "ETag" _) "Cache-Control" _).
  assert (H0 : h0 !! key = h !! key).
  { subst h0. destruct Hkey as [<-|[<-|[<-|[]]]];
      by rewrite !Header_Set_lookup_ne by done. }
  set (h1 := setIfEmpty h0 "Docker-Content-Digest" _).
  assert (H1 : h1 !! key = h !! key).
  { subst h1. rewrite setIfEmpty_lookup_keep; [done|].
    by rewrite (Header_Get_lookup _ _ _ H0). }
  set (h2 := setIfEmpty h1 "Content-Type" _).
  assert (H2 : h2 !! key = h !! key).
  { subst h2. rewrite setIfEmpty_lookup_keep; [done|].
    by rewrite (Header_Get_lookup _ _ _ H1). }
  rewrite setIfEmpty_lookup_keep; [done|].
  by rewrite (Header_Get_lookup _ _ _ H2).
Qed.

Lemma variantHeaders_keep_digest dgst size enc h :
  variantHeaders dgst size enc h !! "Docker-Content-Digest"
  = h !! "Docker-Content-Digest".
Proof. unfold variantHeaders. by rewrite !Header_Set_lookup_ne by done. Qed.

(** C1 (as amended): on every call of [ServeBlob] that hands a body to
    [http.ServeContent], the digest in the ETag and the name given to
    [http.ServeContent] are the digest of the descriptor the Descriptor
    Source returned when the blob is delivered from the descriptor, and
    the digest argument of the caller when a negotiated variant is
    delivered. *)
Theorem C1_caching_identity_per_path bs r dgst h :
  let out := ServeBlob ParseAccept newFileReader bs r dgst h in
  served (traceOf out) ->
  match valueOf (negotiationPhase ParseAccept newFileReader bs r dgst h) with
  | None =>
      exists desc,
        statter bs dgst = Ok desc /\
        Header_Get (headerOf out) "ETag" = Sprintf_quoted (desc_Digest desc) /\
        forall name modtime br,
          In (EvHttpServeContent name modtime br) (traceOf out) ->
          name = Digest_String (desc_Digest desc)
  | Some _ =>
      Header_Get (headerOf out) "ETag" = Digest_String dgst /\
      forall name modtime br,
        In (EvHttpServeContent name modtime br) (traceOf out) ->
        name = Digest_String dgst
  end.
Proof.
  intros out Hserved. subst out.
  destruct (ServeBlob_outcome bs r dgst h)
    as [pre enc path stat br Hneg Hq Hin Hst Hop
       |pre desc path br Hneg Hq Hst Hpath Hop
       |pre path size e Hneg Hq Hop
       |pre err Hneg Hq]; cbn in Hserved |- *.
  - rewrite Hneg. split.
    + unfold Header_Get. by rewrite variantHeaders_ETag.
    + intros name modtime br' Hin'.
      by destruct (served_tail_inv _ _ _ _ _ _ _ _ Hq Hin') as [-> _].
  - rewrite Hneg. exists desc. split; [done|]. split.
    + unfold Header_Get. by rewrite canonicalHeaders_ETag.
    + intros name modtime br' Hin'.
      by destruct (served_tail_inv _ _ _ _ _ _ _ _ Hq Hin') as [-> _].
  - exfalso. destruct Hserved as (name & modtime & br & Hin).
    apply in_app_or in Hin as [Hin|[Heq|[]]]; [|discriminate].
    rewrite List.Forall_forall in Hq. exact (Hq _ Hin).
  - exfalso. by apply (quiet_not_served pre).
Qed.

(** C3 (as amended): a Content-Type, Content-Length or
    Docker-Content-Digest header that holds a non-empty value before
    [ServeBlob] runs is left as it was by every call that does not
    deliver a negotiated variant; when a negotiated variant is delivered
    this still holds for Docker-Content-Digest. *)
Theorem C3_outer_headers_kept bs r dgst h key :
  In key outerHeaders ->
  Header_Get h key <> "" ->
  key = "Docker-Content-Digest" \/
    valueOf (negotiationPhase ParseAccept newFileReader bs r dgst h) <> Some None ->
  headerOf (ServeBlob ParseAccept newFileReader bs r dgst h) !! key = h !! key.
Proof.
  intros Hkey Hset Hpath.
  destruct (ServeBlob_outcome bs r dgst h)
    as [pre enc path stat br Hneg Hq Hin Hst Hop
       |pre desc path br Hneg Hq Hst Hpath' Hop
       |pre path size e Hneg Hq Hop
       |pre err Hneg Hq]; cbn; try reflexivity.
  - destruct Hpath as [->|Hne]; [|done]. apply variantHeaders_keep_digest.
  - by apply canonicalHeaders_keep.
Qed.

(** C6 (as amended): when the parsed encoding-preference list is empty
    and the path function accepts the digest, [ServeBlobContent] returns
    no match and no error, calls no collaborator and writes no header,
    and [ServeBlob] delivers from the descriptor. *)
Theorem C6_empty_preferences_skip_negotiation bs r dgst h path :
  ParseAccept (req_Header r) "Accept-Encoding" = [] ->
  pathFn bs dgst = Ok path ->
  ServeBlobContent ParseAccept newFileReader bs r dgst h = (h, [], (false, None)) /\
  ServeBlob ParseAccept newFileReader bs r dgst h
  = serveCanonical newFileReader bs r dgst h.
Proof.
  intros Hacc Hpath.
  assert (Hc : ServeBlobContent ParseAccept newFileReader bs r dgst h
               = (h, [], (false, None)))
    by (by rewrite ServeBlobContent_run, Hpath, Hacc).
  split; [exact Hc|].
  rewrite ServeBlob_run, negotiationPhase_run. cbv zeta. rewrite Hc.
  case_decide; cbn; by destruct (serveCanonical _ _ _ _ _) as [[??]?].
Qed.

(** C7: on every call of [ServeBlob] that returns [nil] after handing a
    body to [http.ServeContent], the ETag header holds the descriptor's
    digest between double quotes when the blob is delivered from the
    descriptor, and the bare digest argument when a negotiated variant
    is delivered. *)
Theorem C7_etag_quoted_or_raw bs r dgst h :
  let out := ServeBlob ParseAccept newFileReader bs r dgst h in
  served (traceOf out) ->
  valueOf out = None /\
  match valueOf (negotiationPhase ParseAccept newFileReader bs r dgst h) with
  | None =>
      exists desc,
        statter bs dgst = Ok desc /\
        headerOf out !! "ETag"
        = Some [String (ascii_of_nat 34)
                  (desc_Digest desc +:+ String (ascii_of_nat 34) EmptyString)]
  | Some _ => headerOf out !! "ETag" = Some [dgst]
  end.
Proof.
  intros out Hserved. subst out.
  destruct (ServeBlob_outcome bs r dgst h)
    as [pre enc path stat br Hneg Hq Hin Hst Hop
       |pre desc path br Hneg Hq Hst Hpath Hop
       |pre path size e Hneg Hq Hop
       |pre err Hneg Hq]; cbn in Hserved |- *.
  - rewrite Hneg. split; [done|]. apply variantHeaders_ETag.
  - rewrite Hneg. split; [done|]. exists desc. split; [done|].
    apply canonicalHeaders_ETag.
  - exfalso. destruct Hserved as (name & modtime & br & Hin).
    apply in_app_or in Hin as [Hin|[Heq|[]]]; [|discriminate].
    rewrite List.Forall_forall in Hq. exact (Hq _ Hin).
  - exfalso. by apply (quiet_not_served pre).
Qed.

(** C8 (as amended): a digest the path function rejects is rejected
    before any collaborator is called by [ServeBlobContent], and by
    [ServeBlob] when the request opts in to transport compression.
    Without the opt-in [ServeBlob] first asks the Descriptor Source
    about the caller's digest; the path function is applied to the
    digest of the descriptor it returns, and when that one is rejected
    the Storage Driver is not called. *)
Theorem C8_rejected_digest bs r dgst h e :
  pathFn bs dgst = Err e ->
  ServeBlobContent ParseAccept newFileReader bs r dgst h = (h, [], (false, Some e)) /\
  (Header_Get (req_Header r) "Docker-Transport-Compression" = "enabled" ->
   ServeBlob ParseAccept newFileReader bs r dgst h = (h, [], Some e)) /\
  (Header_Get (req_Header r) "Docker-Transport-Compression" <> "enabled" ->
   (exists t,
      traceOf (ServeBlob ParseAccept newFileReader bs r dgst h)
      = EvStatterStat dgst :: t) /\
   forall desc e',
     statter bs dgst = Ok desc ->
     pathFn bs (desc_Digest desc) = Err e' ->
     ServeBlob ParseAccept newFileReader bs r dgst h
     = (h, [EvStatterStat dgst], Some e')).
Proof.
  intros Hpath.
  assert (Hc : ServeBlobContent ParseAccept newFileReader bs r dgst h
               = (h, [], (false, Some e)))
    by (by rewrite ServeBlobContent_run, Hpath).
  split; [exact Hc|]. split.
  - intros Hen. rewrite ServeBlob_run, negotiationPhase_run. cbv zeta.
    rewrite decide_True by exact Hen. by rewrite Hc.
  - intros Hen.
    assert (Hs : ServeBlob ParseAccept newFileReader bs r dgst h
                 = serveCanonical newFileReader bs r dgst h).
    { rewrite ServeBlob_run, negotiationPhase_run. cbv zeta.
      rewrite decide_False by exact Hen. cbn.
      by destruct (serveCanonical _ _ _ _ _) as [[??]?]. }
    rewrite Hs, serveCanonical_run. split.
    + destruct (statter bs dgst) as [desc|e1]; [|by eexists].
      destruct (pathFn bs (desc_Digest desc)) as [path|e1]; [|by eexists].
      cbv zeta. destruct (valueOf (redirectPhase _ _ _ _)); by eexists.
    + intros desc e' -> ->. reflexivity.
Qed.

(** C9: in every call of [ServeBlob] and of [ServeBlobContent], a reader
    that [newFileReader] opened is handed to [http.ServeContent] and then
    closed, and the call of [Close] is the last thing the function does.
    [http.ServeContent] returns nothing, so whether it managed to write
    the body makes no difference to the function. *)
Theorem C9_reader_closed_before_return bs r dgst h t path size br :
  t = traceOf (ServeBlob ParseAccept newFileReader bs r dgst h) \/
  t = traceOf (ServeBlobContent ParseAccept newFileReader bs r dgst h) ->
  In (EvNewFileReader path size) t ->
  newFileReader (driver bs) path size = Ok br ->
  exists pre name,
    t = pre ++ [EvNewFileReader path size;
                EvHttpServeContent name TimeZero br;
                EvClose br].
Proof.
  assert (Htail : forall name br0,
    Forall (fun ev => forall p s, ev <> EvNewFileReader p s)
      [EvHttpServeContent name TimeZero br0; EvClose br0])
    by (intros; repeat constructor; discriminate).
  intros [-> | ->] Hin Hopen.
  - destruct (ServeBlob_outcome bs r dgst h)
      as [pre enc p stat br0 Hneg Hq Hacc Hst Hop
         |pre desc p br0 Hneg Hq Hst Hpath Hop
         |pre p sz e Hneg Hq Hop
         |pre err Hneg Hq]; cbn in Hin |- *.
    + destruct (opened_tail_inv _ _ _ _ _ _ Hq (Htail _ _) Hin) as [-> ->].
      rewrite Hop in Hopen. inversion Hopen; subst. by eexists _, _.
    + destruct (opened_tail_inv _ _ _ _ _ _ Hq (Htail _ _) Hin) as [-> ->].
      rewrite Hop in Hopen. inversion Hopen; subst. by eexists _, _.
    + destruct (opened_tail_inv _ _ _ [] _ _ Hq (List.Forall_nil _) Hin) as [-> ->].
      rewrite Hop in Hopen. discriminate.
    + rewrite List.Forall_forall in Hq. destruct (Hq _ Hin).
  - destruct (ServeBlobContent_outcome bs r dgst h)
      as [stats Hs|stats e Hs|stats p stat e Hs Hst Hop
         |stats enc p stat br0 Hs Hacc Hst Hop];
      apply isDriverStat_quiet in Hs as Hq; cbn in Hin |- *.
    + rewrite List.Forall_forall in Hq. destruct (Hq _ Hin).
    + rewrite List.Forall_forall in Hq. destruct (Hq _ Hin).
    + destruct (opened_tail_inv _ _ _ [] _ _ Hq (List.Forall_nil _) Hin) as [-> ->].
      rewrite Hop in Hopen. discriminate.
    + destruct (opened_tail_inv _ _ _ _ _ _ Hq (Htail _ _) Hin) as [-> ->].
      rewrite Hop in Hopen. inversion Hopen; subst. by eexists _, _.
Qed.

(** C2 (as amended): [ServeBlobContent] goes through the encodings in
    the order of the list [header.ParseAccept] returns and never reads
    their weights.  It delivers the first candidate of that list whose
    [Stat] succeeds, when the [Stat] of every candidate before it reports
    path-not-found and the reader opens; so a candidate that is the only
    existing one is delivered wherever it stands in the list. *)
Theorem C2_first_existing_in_list_order
    bs r dgst h canonical pre enc post stat br :
  pathFn bs dgst = Ok canonical ->
  ParseAccept (req_Header r) "Accept-Encoding" = pre ++ enc :: post ->
  forallb (statNotFound bs) (candidates canonical pre) = true ->
  let p := filepath.Join
             [filepath.Dir (lastPath canonical pre); "data." +:+ Value enc] in
  drv_Stat (driver bs) p = Ok stat ->
  newFileReader (driver bs) p (fi_Size stat) = Ok br ->
  ServeBlobContent ParseAccept newFileReader bs r dgst h =
    (variantHeaders dgst (fi_Size stat) enc h,
     map EvDriverStat (candidates canonical pre ++ [p])
       ++ [EvNewFileReader p (fi_Size stat);
           EvHttpServeContent (Digest_String dgst) TimeZero br;
           EvClose br],
     (true, None)).
Proof.
  intros Hpath Hacc Hpre p Hstat Hopen.
  rewrite ServeBlobContent_run, Hpath, Hacc.
  rewrite negotiate_skip by exact Hpre. cbv zeta.
  rewrite negotiate_cons. cbv zeta. unfold sibling. fold p.
  rewrite Hstat, serveVariant_run, Hopen. cbn.
  by rewrite map_app, <- app_assoc.
Qed.
End Facts.

(** ** The theorems on the small registry *)

Import Fixture.

Lemma C4_witness :
  ServeBlob (parsed []) openReader (server signedURL true) plainGet "sha256:abc" ∅
  = (∅,
     [EvStatterStat "sha256:abc";
      EvDriverURLFor "/blobs/sha256:abc/data" {["method" := "GET"]};
      EvHttpRedirect "https://cdn.example/blobs/sha256:abc/data" 307],
     None).
Proof.
  pose proof (C4_redirect_three_outcomes (parsed []) openReader
                (server signedURL true) plainGet "sha256:abc" ∅
                (mkDescriptor "application/vnd.oci.image.layer.v1.tar" 5 "sha256:abc")
                "/blobs/sha256:abc/data" eq_refl eq_refl eq_refl eq_refl) as H.
  vm_compute in H. vm_compute. exact H.
Defined.

(** A request for a blob under its second spelling, delivered from the
    descriptor: the caching identity is the canonical digest. *)
Lemma C1_witness :
  let out := ServeBlob (parsed []) openReader (server noURL false) plainGet
               "tarsum.v1+sha256:fed" ∅ in
  served (traceOf out) /\
  Header_Get (headerOf out) "ETag" = Sprintf_quoted "sha256:abc" /\
  forall name modtime br,
    In (EvHttpServeContent name modtime br) (traceOf out) -> name = "sha256:abc".
Proof.
  assert (Hs : served (traceOf (ServeBlob (parsed []) openReader (server noURL false)
                                  plainGet "tarsum.v1+sha256:fed" ∅))).
  { eexists _, _, _. vm_compute. right. right. left. reflexivity. }
  pose proof (C1_caching_identity_per_path (parsed []) openReader
                (server noURL false) plainGet "tarsum.v1+sha256:fed" ∅ Hs) as H.
  cbv zeta. split; [exact Hs|].
  destruct H as (desc & Hst & Hetag & Hname).
  vm_compute in Hst. inversion Hst; subst desc. split; [exact Hetag|exact Hname].
Defined.

(** The same blob asked for with the transport-compression opt-in: the
    variant is delivered under the caller's spelling of the digest, not
    under the digest of the descriptor. *)
Lemma C1_counterexample :
  let bs := server noURL false in
  let dgst := "tarsum.v1+sha256:fed" in
  let out := ServeBlob (parsed [gzip]) openReader bs compressedGet dgst ∅ in
  statter bs dgst
  = Ok (mkDescriptor "application/vnd.oci.image.layer.v1.tar" 5 "sha256:abc") /\
  valueOf out = None /\
  Header_Get (headerOf out) "ETag" = dgst /\
  Header_Get (headerOf out) "ETag" <> "sha256:abc" /\
  Header_Get (headerOf out) "ETag" <> Sprintf_quoted "sha256:abc" /\
  In (EvHttpServeContent dgst TimeZero
        (mkFileReader "/blobs/tarsum.v1+sha256:fed/data.gzip" 3))
     (traceOf out).
Proof.
  vm_compute. repeat split; try discriminate. right. right. left. reflexivity.
Qed.

Lemma C2_witness :
  ServeBlobContent (parsed [brotli; gzip; zstd]) openReader (server noURL false)
    compressedGet "sha256:abc" ∅
  = (variantHeaders "sha256:abc" 3 gzip ∅,
     [EvDriverStat "/blobs/sha256:abc/data.br";
      EvDriverStat "/blobs/sha256:abc/data.gzip";
      EvNewFileReader "/blobs/sha256:abc/data.gzip" 3;
      EvHttpServeContent "sha256:abc" TimeZero
        (mkFileReader "/blobs/sha256:abc/data.gzip" 3);
      EvClose (mkFileReader "/blobs/sha256:abc/data.gzip" 3)],
     (true, None)).
Proof.
  exact (C2_first_existing_in_list_order (parsed [brotli; gzip; zstd]) openReader
           (server noURL false) compressedGet "sha256:abc" ∅
           "/blobs/sha256:abc/data" [brotli] gzip [zstd]
           (mkFileInfo "/blobs/sha256:abc/data.gzip" 3)
           (mkFileReader "/blobs/sha256:abc/data.gzip" 3)
           eq_refl eq_refl eq_refl eq_refl eq_refl).
Defined.

(** The client weighs zstd above gzip and lists gzip first; both variants
    exist.  The document selects zstd, the server delivers gzip. *)
Lemma C2_counterexample :
  let bs := server noURL false in
  let accepted := [mkAcceptSpec "gzip" (1 # 2); mkAcceptSpec "zstd" 1] in
  let out := ServeBlobContent (parsed accepted) openReader bs compressedGet
               "sha256:abc" ∅ in
  pathFn bs "sha256:abc" = Ok "/blobs/sha256:abc/data" /\
  selectedByPreference bs "/blobs/sha256:abc/data" accepted
  = Some (mkAcceptSpec "zstd" 1) /\
  valueOf out = (true, None) /\
  Header_Get (headerOf out) "Content-Encoding" = "gzip" /\
  In (EvNewFileReader "/blobs/sha256:abc/data.gzip" 3) (traceOf out).
Proof.
  vm_compute. repeat split. right. left. reflexivity.
Qed.

Lemma C3_witness :
  headerOf (ServeBlob (parsed []) openReader (server noURL false) plainGet
              "sha256:abc" {[ "Content-Type" := ["text/plain"] ]})
    !! "Content-Type"
  = Some ["text/plain"].
Proof.
  refine (C3_outer_headers_kept (parsed []) openReader (server noURL false)
            plainGet "sha256:abc" {[ "Content-Type" := ["text/plain"] ]}
            "Content-Type" _ _ _).
  - left. reflexivity.
  - vm_compute. discriminate.
  - right. vm_compute. discriminate.
Defined.

(** An outer layer has set Content-Type and Content-Length; a negotiated
    variant is delivered and both are overwritten. *)
Lemma C3_counterexample :
  let h : Header := {[ "Content-Type" := ["text/plain"];
                       "Content-Length" := ["5"] ]} in
  let out := ServeBlob (parsed [gzip]) openReader (server noURL false)
               compressedGet "sha256:abc" h in
  Header_Get h "Content-Type" = "text/plain" /\
  Header_Get h "Content-Length" = "5" /\
  valueOf out = None /\
  Header_Get (headerOf out) "Content-Type" = "application/octet-stream" /\
  Header_Get (headerOf out) "Content-Length" = "3".
Proof. vm_compute. repeat split. Qed.

Lemma C5_witness :
  ServeBlobContent (parsed [brotli; gzip]) openReader (server noURL false)
    compressedGet "sha256:abc" ∅
  = (variantHeaders "sha256:abc" 3 gzip ∅,
     [EvDriverStat "/blobs/sha256:abc/data.br";
      EvDriverStat "/blobs/sha256:abc/data.gzip";
      EvNewFileReader "/blobs/sha256:abc/data.gzip" 3;
      EvHttpServeContent "sha256:abc" TimeZero
        (mkFileReader "/blobs/sha256:abc/data.gzip" 3);
      EvClose (mkFileReader "/blobs/sha256:abc/data.gzip" 3)],
     (true, None)).
Proof.
  pose proof (C5_stat_not_found_continues_other_error_aborts
                (parsed [brotli; gzip]) openReader (server noURL false)
                compressedGet "sha256:abc" ∅ "/blobs/sha256:abc/data"
                [] brotli [gzip]
                (PathNotFoundError "/blobs/sha256:abc/data.br" "inmemory")
                eq_refl eq_refl eq_refl eq_refl) as H.
  vm_compute in H. vm_compute. exact H.
Defined.

Lemma C6_witness :
  ServeBlobContent (parsed []) openReader (server noURL false) compressedGet
    "sha256:abc" ∅ = (∅, [], (false, None)) /\
  ServeBlob (parsed []) openReader (server noURL false) compressedGet
    "sha256:abc" ∅
  = serveCanonical openReader (server noURL false) compressedGet "sha256:abc" ∅.
Proof.
  exact (C6_empty_preferences_skip_negotiation (parsed []) openReader
           (server noURL false) compressedGet "sha256:abc" ∅
           "/blobs/sha256:abc/data" eq_refl eq_refl).
Defined.

(** No encoding preference and a digest the path function rejects:
    [ServeBlobContent] returns the error, and [ServeBlob] returns it
    without delivering from the descriptor. *)
Lemma C6_counterexample :
  let bs := server noURL false in
  parsed [] (req_Header compressedGet) "Accept-Encoding" = [] /\
  ServeBlobContent (parsed []) openReader bs compressedGet "" ∅
  = (∅, [], (false, Some (OtherError "invalid digest"))) /\
  ServeBlob (parsed []) openReader bs compressedGet "" ∅
  = (∅, [], Some (OtherError "invalid digest")).
Proof. vm_compute. repeat split. Qed.

Lemma C7_witness :
  let out := ServeBlob (parsed []) openReader (server noURL false) plainGet
               "sha256:abc" ∅ in
  valueOf out = None /\
  headerOf out !! "ETag"
  = Some [String (ascii_of_nat 34)
            ("sha256:abc" +:+ String (ascii_of_nat 34) EmptyString)].
Proof.
  assert (Hs : served (traceOf (ServeBlob (parsed []) openReader (server noURL false)
                                  plainGet "sha256:abc" ∅))).
  { eexists _, _, _. vm_compute. right. right. left. reflexivity. }
  destruct (C7_etag_quoted_or_raw (parsed []) openReader (server noURL false)
              plainGet "sha256:abc" ∅ Hs) as [Hnil (desc & Hst & Hetag)].
  vm_compute in Hst. inversion Hst; subst desc. split; [exact Hnil|exact Hetag].
Defined.

Lemma C8_witness :
  ServeBlobContent (parsed [gzip]) openReader (server noURL false) compressedGet
    "" ∅ = (∅, [], (false, Some (OtherError "invalid digest"))) /\
  ServeBlob (parsed [gzip]) openReader (server noURL false) compressedGet "" ∅
  = (∅, [], Some (OtherError "invalid digest")).
Proof.
  destruct (C8_rejected_digest (parsed [gzip]) openReader (server noURL false)
              compressedGet "" ∅ (OtherError "invalid digest") eq_refl)
    as (Hc & Hen & _).
  split; [exact Hc|]. apply Hen. reflexivity.
Defined.

(** A digest the path function rejects, asked for without the opt-in: the
    Descriptor Source is called with it before anything is rejected. *)
Lemma C8_counterexample :
  let bs := server noURL false in
  let out := ServeBlob (parsed []) openReader bs plainGet "" ∅ in
  pathFn bs "" = Err (OtherError "invalid digest") /\
  traceOf out = [EvStatterStat ""] /\
  valueOf out = Some (OtherError "blob unknown to registry").
Proof. vm_compute. repeat split. Qed.

Lemma C9_witness :
  traceOf (ServeBlob (parsed []) openReader (server noURL false) plainGet
             "sha256:abc" ∅)
  = [EvStatterStat "sha256:abc";
     EvNewFileReader "/blobs/sha256:abc/data" 5;
     EvHttpServeContent "sha256:abc" TimeZero
       (mkFileReader "/blobs/sha256:abc/data" 5);
     EvClose (mkFileReader "/blobs/sha256:abc/data" 5)].
Proof.
  destruct (C9_reader_closed_before_return (parsed []) openReader
              (server noURL false) plainGet "sha256:abc" ∅ _
              "/blobs/sha256:abc/data" 5 (mkFileReader "/blobs/sha256:abc/data" 5)
              (or_introl eq_refl))
    as (pre & name & Heq).
  - vm_compute. right. left. reflexivity.
  - reflexivity.
  - reflexivity.
Defined.

(** C10: an [Accept-Encoding] value may contain a slash.  After such a
    token the directory of the loop's path is no longer the directory of
    the canonical path: for the tokens [x/y] and [gzip] the second [Stat]
    goes to [data.x/data.gzip], not to the sibling [data.gzip] of the
    canonical path, and the existing gzip variant is not delivered. *)
Lemma C10_slash_token_moves_directory :
  let bs := server noURL false in
  let accepted := [mkAcceptSpec "x/y" 1; gzip] in
  let out := ServeBlobContent (parsed accepted) openReader bs compressedGet
               "sha256:abc" ∅ in
  pathFn bs "sha256:abc" = Ok "/blobs/sha256:abc/data" /\
  traceOf out = [EvDriverStat "/blobs/sha256:abc/data.x/y";
                 EvDriverStat "/blobs/sha256:abc/data.x/data.gzip"] /\
  filepath.Join [filepath.Dir "/blobs/sha256:abc/data"; "data." +:+ "gzip"]
  = "/blobs/sha256:abc/data.gzip" /\
  variantExists bs "/blobs/sha256:abc/data.gzip" = true /\
  valueOf out = (false, None).
Proof. vm_compute. repeat split. Qed.

(** ** The scenarios of the design document *)

(** A descriptor of size 5 and no redirect: the blob is streamed with its
    length and media type. *)
Example scenario_stream :
  let out := ServeBlob (parsed []) openReader (server noURL false) plainGet
               "sha256:abc" ∅ in
  valueOf out = None /\
  Header_Get (headerOf out) "Content-Length" = "5" /\
  Header_Get (headerOf out) "Content-Type"
  = "application/vnd.oci.image.layer.v1.tar" /\
  Header_Get (headerOf out) "Docker-Content-Digest" = "sha256:abc" /\
  Header_Get (headerOf out) "Cache-Control" = "max-age=31536000".
Proof. vm_compute. repeat split. Qed.

(** The descriptor lookup fails: the error is returned, no header is
    written and no reader is opened. *)
Example scenario_unknown_blob :
  ServeBlob (parsed []) openReader (server noURL false) plainGet
    "sha256:deadbeef" ∅
  = (∅, [EvStatterStat "sha256:deadbeef"],
     Some (OtherError "blob unknown to registry")).
Proof. vm_compute. reflexivity. Qed.

(** Redirect enabled on a backend without URL generation: the blob is
    streamed and no error is returned. *)
Example scenario_redirect_unsupported :
  let out := ServeBlob (parsed []) openReader (server noURL true) plainGet
               "sha256:abc" ∅ in
  valueOf out = None /\
  traceOf out
  = [EvStatterStat "sha256:abc";
     EvDriverURLFor "/blobs/sha256:abc/data" {["method" := "GET"]};
     EvNewFileReader "/blobs/sha256:abc/data" 5;
     EvHttpServeContent "sha256:abc" TimeZero
       (mkFileReader "/blobs/sha256:abc/data" 5);
     EvClose (mkFileReader "/blobs/sha256:abc/data" 5)].
Proof. vm_compute. split; reflexivity. Qed.

(** Redirect enabled on a backend whose URL generation fails: the error
    is returned and nothing is streamed. *)
Example scenario_redirect_fails :
  ServeBlob (parsed []) openReader (server brokenURL true) plainGet
    "sha256:abc" ∅
  = (∅,
     [EvStatterStat "sha256:abc";
      EvDriverURLFor "/blobs/sha256:abc/data" {["method" := "GET"]}],
     Some (OtherError "backend unavailable")).
Proof. vm_compute. reflexivity. Qed.

(** The client lists zstd before gzip and only the gzip variant exists. *)
Example scenario_only_gzip_exists :
  let out := ServeBlob (parsed [zstd; gzip]) openReader (server noURL false)
               compressedGet "tarsum.v1+sha256:fed" ∅ in
  valueOf out = None /\
  Header_Get (headerOf out) "Content-Encoding" = "gzip" /\
  Header_Get (headerOf out) "Content-Length" = "3".
Proof. vm_compute. repeat split. Qed.


(** * Further properties of the two methods *)

Section MoreFacts.
Context (ParseAccept : Header -> string -> list AcceptSpec).
Context (newFileReader : StorageDriver -> string -> Z -> result fileReader).

Lemma serveCanonical_cases bs r dgst h :
  CanonicalOutcome newFileReader bs r dgst h
    (serveCanonical newFileReader bs r dgst h).
Proof.
  rewrite serveCanonical_run.
  destruct (statter bs dgst) as [desc|e] eqn:Hstat; [|by apply LookupFailed].
  destruct (pathFn bs _) as [path|e] eqn:Hpath;
    [|by apply (PathRejected _ _ _ _ _ desc)].
  rewrite redirectPhase_run. cbv zeta.
  assert (Hstream : fallsThrough bs r path ->
    let o3 := streamBlob newFileReader bs desc path h in
    CanonicalOutcome newFileReader bs r dgst h
      (headerOf o3, EvStatterStat dgst :: urlForCall bs r path ++ traceOf o3,
       valueOf o3)).
  { intros Hft. cbv zeta. rewrite streamBlob_run.
    destruct (newFileReader _ _ _) as [br|e] eqn:Hopen; cbn.
    - by apply (Streamed _ _ _ _ _ desc path br).
    - by apply (StreamOpenFailed _ _ _ _ _ desc path e). }
  unfold urlForCall in Hstream.
  destruct (redirect bs) eqn:Hred.
  - destruct (drv_URLFor _ _ _) as [url|e] eqn:Hurl.
    + by apply (Redirected _ _ _ _ _ desc path url).
    + destruct (isUnsupportedMethod e) eqn:Hun.
      * destruct e as [name| |]; try discriminate. cbn.
        apply Hstream. right. by exists name.
      * destruct e as [name|p name|msg]; try discriminate;
          by apply (RedirectFailed _ _ _ _ _ desc path).
  - cbn. apply Hstream. by left.
Qed.

(** [ServeBlob] is either the answer of the negotiation, or the delivery
    from the descriptor after the [Stat] calls of a negotiation that found
    nothing and wrote nothing. *)
Lemma ServeBlob_split bs r dgst h :
  let sbc := ServeBlobContent ParseAccept newFileReader bs r dgst h in
  let can := serveCanonical newFileReader bs r dgst h in
  let out := ServeBlob ParseAccept newFileReader bs r dgst h in
  (Header_Get (req_Header r) "Docker-Transport-Compression" = "enabled" /\
   valueOf sbc <> (false, None) /\
   out = (headerOf sbc, traceOf sbc, (valueOf sbc).2)) \/
  (exists stats,
     Forall isDriverStat stats /\
     (Header_Get (req_Header r) "Docker-Transport-Compression" <> "enabled" ->
      stats = []) /\
     (Header_Get (req_Header r) "Docker-Transport-Compression" = "enabled" ->
      sbc = (h, stats, (false, None))) /\
     out = (headerOf can, stats ++ traceOf can, valueOf can)).
Proof.
  intros sbc can out. subst out.
  rewrite ServeBlob_run, negotiationPhase_run. cbv zeta. fold sbc.
  destruct (decide (Header_Get (req_Header r) "Docker-Transport-Compression"
                    = "enabled")) as [Hen|Hen].
  - pose proof (ServeBlobContent_outcome ParseAccept newFileReader bs r dgst h)
      as Hout. fold sbc in Hout.
    inversion Hout as [stats Hs Heq|stats e Hs Heq
                      |stats p stat e Hs Hst Hop Heq
                      |stats enc p stat br Hs Hin Hst Hop Heq]; cbn.
    + right. exists stats. fold can. by repeat split.
    + left. by repeat split.
    + left. by repeat split.
    + left. by repeat split.
  - right. exists []. cbn. fold can. by repeat split.
Qed.

Lemma in_stats_app ev stats evs :
  Forall isDriverStat stats ->
  In ev (stats ++ evs) -> isDriverStat ev \/ In ev evs.
Proof.
  intros Hs [Hin|Hin]%in_app_or; [left|by right].
  rewrite List.Forall_forall in Hs. by apply Hs.
Qed.

Lemma not_served_stats stats evs :
  Forall isDriverStat stats -> ~ served evs -> ~ served (stats ++ evs).
Proof.
  intros Hs Hevs (name & modtime & br & Hin).
  destruct (in_stats_app _ _ _ Hs Hin) as [[p Hp]|Hin']; [discriminate|].
  apply Hevs. by eexists _, _, _.
Qed.

Lemma not_redirected_stats stats evs :
  Forall isDriverStat stats -> ~ redirected evs -> ~ redirected (stats ++ evs).
Proof.
  intros Hs Hevs (url & code & Hin).
  destruct (in_stats_app _ _ _ Hs Hin) as [[p Hp]|Hin']; [discriminate|].
  apply Hevs. by eexists _, _.
Qed.

Ltac in_cases H :=
  repeat (destruct H as [H|H]; [try discriminate|]);
  try (exfalso; exact H).

Ltac not_in_trace :=
  unfold served, redirected, urlForCall;
  try destruct (redirect _);
  let H := fresh in
  first [intros (?&?&?&H)|intros (?&?&H)]; cbn in H; in_cases H.

Ltac split_ServeBlob bs r dgst h :=
  let Heq := fresh "Heq" in
  pose proof (ServeBlobContent_outcome ParseAccept newFileReader bs r dgst h)
    as Hsbc;
  pose proof (serveCanonical_cases bs r dgst h) as Hcan;
  destruct (ServeBlob_split bs r dgst h)
    as [(Hen & Hne & Heq)|(stats & Hs & Hoff & Hon & Heq)];
  rewrite Heq in *; clear Heq;
  set (sbc := ServeBlobContent ParseAccept newFileReader bs r dgst h) in *;
  set (can := serveCanonical newFileReader bs r dgst h) in *;
  clearbody sbc can.

(** X2: when [ServeBlob] returns an error, it has written no response
    header, handed no body to [http.ServeContent] and issued no
    redirect. *)
Theorem error_leaves_response_untouched bs r dgst h e :
  let out := ServeBlob ParseAccept newFileReader bs r dgst h in
  valueOf out = Some e ->
  headerOf out = h /\ ~ served (traceOf out) /\ ~ redirected (traceOf out).
Proof.
  intros out Herr. subst out. split_ServeBlob bs r dgst h.
  - clear Hcan. destruct Hsbc as [stats Hs|stats e' Hs
                      |stats p stat e' Hs Hst Hop
                      |stats enc p stat br Hs Hin Hst Hop];
      cbn in Herr |- *; try done; (split; [done|]).
    + rewrite <- (app_nil_r stats).
      split; [apply not_served_stats|apply not_redirected_stats];
        try done; not_in_trace.
    + split; [apply not_served_stats|apply not_redirected_stats];
        try done; not_in_trace.
  - clear Hsbc. destruct Hcan
      as [e' Hst|desc e' Hst Hp|desc path url Hst Hp Hr Hu
         |desc path e' Hst Hp Hr Hu Hun|desc path e' Hst Hp Hft Hop
         |desc path br Hst Hp Hft Hop]; cbn in Herr |- *; try done;
      (split; [done|]);
      (split; [apply not_served_stats|apply not_redirected_stats];
        try done; not_in_trace).
Qed.

(** X3: when [ServeBlob] returns [nil], it has either handed a body to
    [http.ServeContent] or issued a redirect, never both; a redirect
    comes with no header written. *)
Theorem nil_means_served_or_redirected bs r dgst h :
  let out := ServeBlob ParseAccept newFileReader bs r dgst h in
  valueOf out = None ->
  (served (traceOf out) /\ ~ redirected (traceOf out)) \/
  (redirected (traceOf out) /\ ~ served (traceOf out) /\ headerOf out = h).
Proof.
  intros out Hnil. subst out. split_ServeBlob bs r dgst h.
  - clear Hcan. destruct Hsbc as [stats Hs|stats e' Hs
                      |stats p stat e' Hs Hst Hop
                      |stats enc p stat br Hs Hin Hst Hop];
      cbn in Hnil, Hne |- *; try done.
    left. split.
    + eexists _, _, _. apply in_or_app. right. right. by left.
    + apply not_redirected_stats; [done|]. not_in_trace.
  - clear Hsbc. destruct Hcan
      as [e' Hst|desc e' Hst Hp|desc path url Hst Hp Hr Hu
         |desc path e' Hst Hp Hr Hu Hun|desc path e' Hst Hp Hft Hop
         |desc path br Hst Hp Hft Hop]; cbn in Hnil |- *; try done.
    + right. split; [|split; [|done]].
      * eexists _, _. apply in_or_app. right. right. right. by left.
      * apply not_served_stats; [done|]. not_in_trace.
    + left. split.
      * eexists _, _, _. apply in_or_app. right. right.
        apply in_or_app. right. right. by left.
      * apply not_redirected_stats; [done|]. not_in_trace.
Qed.

Lemma canonicalHeaders_CacheControl desc h :
  canonicalHeaders desc h !! "Cache-Control" = Some [cacheControl].
Proof.
  unfold canonicalHeaders.
  rewrite !setIfEmpty_lookup_ne by done. apply Header_Set_lookup_eq.
Qed.

Lemma variantHeaders_CacheControl dgst size enc h :
  variantHeaders dgst size enc h !! "Cache-Control" = Some [cacheControl].
Proof.
  unfold variantHeaders.
  rewrite !Header_Set_lookup_ne by done. apply Header_Set_lookup_eq.
Qed.

(** X1: every response [ServeBlob] hands to [http.ServeContent] carries
    the same caching policy, one year in seconds, whatever Cache-Control
    header was there before. *)
Theorem served_response_cache_control bs r dgst h :
  let out := ServeBlob ParseAccept newFileReader bs r dgst h in
  served (traceOf out) ->
  headerOf out !! "Cache-Control" = Some ["max-age=31536000"].
Proof.
  intros out Hserved. subst out.
  change "max-age=31536000" with cacheControl.
  destruct (ServeBlob_outcome ParseAccept newFileReader bs r dgst h)
    as [pre enc path stat br Hneg Hq Hin Hst Hop
       |pre desc path br Hneg Hq Hst Hpath Hop
       |pre path size e Hneg Hq Hop
       |pre err Hneg Hq]; cbn in Hserved |- *.
  - apply variantHeaders_CacheControl.
  - apply canonicalHeaders_CacheControl.
  - exfalso. destruct Hserved as (name & modtime & br & Hin).
    apply in_app_or in Hin as [Hin|[Heq|[]]]; [|discriminate].
    rewrite List.Forall_forall in Hq. exact (Hq _ Hin).
  - exfalso. by apply (quiet_not_served pre).
Qed.

Lemma variantHeaders_lookups dgst size enc h :
  variantHeaders dgst size enc h !! "Content-Encoding" = Some [Value enc] /\
  variantHeaders dgst size enc h !! "Content-Length" = Some [Sprint size] /\
  variantHeaders dgst size enc h !! "Content-Type"
  = Some ["application/octet-stream"].
Proof.
  unfold variantHeaders. repeat split.
  - apply Header_Set_lookup_eq.
  - rewrite !Header_Set_lookup_ne by done. apply Header_Set_lookup_eq.
  - rewrite !Header_Set_lookup_ne by done. apply Header_Set_lookup_eq.
Qed.

(** X4: when [ServeBlobContent] reports a match, its error is [nil], the
    Content-Encoding it set is a value of the parsed [Accept-Encoding]
    list, the Content-Type is [application/octet-stream], and the
    Content-Length is the size [Stat] reported for the path the reader
    was opened on with that same size. *)
Theorem matched_variant_metadata bs r dgst h h' t err :
  ServeBlobContent ParseAccept newFileReader bs r dgst h = (h', t, (true, err)) ->
  err = None /\
  exists enc path stat,
    In enc (ParseAccept (req_Header r) "Accept-Encoding") /\
    drv_Stat (driver bs) path = Ok stat /\
    In (EvNewFileReader path (fi_Size stat)) t /\
    h' !! "Content-Encoding" = Some [Value enc] /\
    h' !! "Content-Length" = Some [Sprint (fi_Size stat)] /\
    h' !! "Content-Type" = Some ["application/octet-stream"].
Proof.
  intros Heq.
  pose proof (ServeBlobContent_outcome ParseAccept newFileReader bs r dgst h)
    as Hsbc. rewrite Heq in Hsbc.
  inversion Hsbc as [| |
                    |stats enc p stat br Hs Hin Hst Hop]; subst.
  split; [done|]. exists enc, p, stat.
  destruct (variantHeaders_lookups dgst (fi_Size stat) enc h) as (H1 & H2 & H3).
  repeat split; try done. apply in_or_app. right. by left.
Qed.

Lemma isDriverStat_negotiationEvent stats :
  Forall isDriverStat stats -> Forall negotiationEvent stats.
Proof. intros Hs. eapply Forall_impl; [exact Hs|]. by intros ev [p ->]. Qed.

Lemma NegotiateOutcome_events bs dgst accepted h out :
  NegotiateOutcome newFileReader bs dgst accepted h out ->
  Forall negotiationEvent (traceOf out).
Proof.
  intros [stats Hs|stats e' Hs|stats p stat e' Hs Hst Hop
         |stats enc p stat br Hs Hin Hst Hop]; cbn;
    try apply Forall_app; try split;
    try (by apply isDriverStat_negotiationEvent); by repeat constructor.
Qed.


(** X6: with redirect mode disabled, [ServeBlob] never calls [URLFor] and
    never issues a redirect. *)
Theorem redirect_disabled_no_url bs r dgst h :
  redirect bs = false ->
  let t := traceOf (ServeBlob ParseAccept newFileReader bs r dgst h) in
  ~ redirected t /\ forall path options, ~ In (EvDriverURLFor path options) t.
Proof.
  intros Hdis t. subst t. split_ServeBlob bs r dgst h;
    pose proof (NegotiateOutcome_events _ _ _ _ _ Hsbc) as Hev.
  - clear Hcan. cbn. rewrite List.Forall_forall in Hev. split.
    + intros (url & code & Hin). exact (Hev _ Hin).
    + intros path options Hin. exact (Hev _ Hin).
  - clear Hsbc. destruct Hcan
      as [e' Hst|desc e' Hst Hp|desc path url Hst Hp Hr Hu
         |desc path e' Hst Hp Hr Hu Hun|desc path e' Hst Hp Hft Hop
         |desc path br Hst Hp Hft Hop]; cbn; try congruence;
      unfold urlForCall; try rewrite Hdis;
      (split;
       [apply not_redirected_stats; [done|]; not_in_trace
       |intros p o Hin;
        destruct (in_stats_app _ _ _ Hs Hin) as [[? ?]|Hin'];
          [discriminate|]; cbn in Hin'; in_cases Hin']).
Qed.

(** X7: every call of [URLFor] that [ServeBlob] makes happens in redirect
    mode, after the Descriptor Source returned a descriptor, on the path
    the path function gives for the descriptor's digest, and with the
    request's method as the only option. *)
Theorem url_requested_for_descriptor_path bs r dgst h path options :
  In (EvDriverURLFor path options)
     (traceOf (ServeBlob ParseAccept newFileReader bs r dgst h)) ->
  redirect bs = true /\
  options = {["method" := req_Method r]} /\
  exists desc,
    statter bs dgst = Ok desc /\ pathFn bs (desc_Digest desc) = Ok path.
Proof.
  intros Hin. split_ServeBlob bs r dgst h;
    pose proof (NegotiateOutcome_events _ _ _ _ _ Hsbc) as Hev.
  - clear Hcan. rewrite List.Forall_forall in Hev. destruct (Hev _ Hin).
  - clear Hsbc. cbn in Hin.
    destruct (in_stats_app _ _ _ Hs Hin) as [[? ?]|Hin']; [discriminate|].
    clear Hin. destruct Hcan
      as [e' Hst|desc e' Hst Hp|desc p url Hst Hp Hr Hu
         |desc p e' Hst Hp Hr Hu Hun|desc p e' Hst Hp Hft Hop
         |desc p br Hst Hp Hft Hop]; cbn in Hin';
      unfold urlForCall in Hin'; try destruct (redirect bs) eqn:Hred;
      cbn in Hin'; in_cases Hin';
      inversion Hin'; subst; (split; [done|]); (split; [done|]); by exists desc.
Qed.

(** X8: [ServeBlob] closes only a reader it has opened: when [Close] is
    called on a reader, [newFileReader] returned that reader, and the
    call ends with opening it, serving from it and closing it; nothing
    before that opens, serves from or closes a reader, so there is one
    reader per call at most. *)
Theorem close_only_what_was_opened bs r dgst h br :
  let t := traceOf (ServeBlob ParseAccept newFileReader bs r dgst h) in
  In (EvClose br) t ->
  exists pre path size name,
    newFileReader (driver bs) path size = Ok br /\
    Forall quiet pre /\
    t = pre ++ [EvNewFileReader path size;
                EvHttpServeContent name TimeZero br;
                EvClose br].
Proof.
  intros t Hin. subst t.
  destruct (ServeBlob_outcome ParseAccept newFileReader bs r dgst h)
    as [pre enc path stat br0 Hneg Hq Hacc Hst Hop
       |pre desc path br0 Hneg Hq Hst Hpath Hop
       |pre path size e Hneg Hq Hop
       |pre err Hneg Hq]; cbn in Hin |- *;
    try (apply in_app_or in Hin as [Hin|Hin]);
    try (rewrite List.Forall_forall in Hq; by destruct (Hq _ Hin));
    cbn in Hin; in_cases Hin; inversion Hin; subst;
    by eexists pre, _, _, _.
Qed.

(** X9: when the request opts in and [ServeBlobContent] finds no variant
    and reports no error, it has written no header and only made [Stat]
    calls, and [ServeBlob] goes on exactly as delivery from the
    descriptor does, from the unchanged header map. *)
Theorem no_match_then_canonical bs r dgst h h' t :
  Header_Get (req_Header r) "Docker-Transport-Compression" = "enabled" ->
  ServeBlobContent ParseAccept newFileReader bs r dgst h = (h', t, (false, None)) ->
  h' = h /\
  Forall isDriverStat t /\
  let can := serveCanonical newFileReader bs r dgst h in
  ServeBlob ParseAccept newFileReader bs r dgst h
  = (headerOf can, t ++ traceOf can, valueOf can).
Proof.
  intros Hen Hsbc.
  destruct (ServeBlob_split bs r dgst h)
    as [(_ & Hne & _)|(stats & Hs & _ & Hon & Heq)].
  - by rewrite Hsbc in Hne.
  - rewrite (Hon Hen) in Hsbc. inversion Hsbc; subst. by repeat split.
Qed.

Lemma setIfEmpty_lookup_empty (h : Header) key value :
  Header_Get h key = "" -> setIfEmpty h key value !! key = Some [value].
Proof.
  intros Hempty. unfold setIfEmpty. rewrite decide_True by done.
  apply Header_Set_lookup_eq.
Qed.

(** What lines 71-83 leave in one of the three headers. *)
Lemma canonicalHeaders_lookup_outer desc h key :
  In key outerHeaders ->
  canonicalHeaders desc h !! key =
    if decide (Header_Get h key = "") then Some [descriptorValue desc key]
    else h !! key.
Proof.
  intros Hkey. case_decide as Hget; [|by apply canonicalHeaders_keep].
  unfold canonicalHeaders.
  set (h0 := Header_Set (Header_Set h "ETag" _) "Cache-Control" _).
  assert (H0 : forall k, In k outerHeaders -> h0 !! k = h !! k).
  { intros k Hk. subst h0. destruct Hk as [<-|[<-|[<-|[]]]];
      by rewrite !Header_Set_lookup_ne by done. }
  destruct Hkey as [<-|[<-|[<-|[]]]].
  - rewrite setIfEmpty_lookup_ne by done. apply setIfEmpty_lookup_empty.
    rewrite setIfEmpty_Get_ne by done.
    rewrite (Header_Get_lookup _ _ _ (H0 _ ltac:(by left))). done.
  - apply setIfEmpty_lookup_empty.
    rewrite !setIfEmpty_Get_ne by done.
    rewrite (Header_Get_lookup _ _ _ (H0 _ ltac:(by right; left))). done.
  - rewrite !setIfEmpty_lookup_ne by done. apply setIfEmpty_lookup_empty.
    rewrite (Header_Get_lookup _ _ _ (H0 _ ltac:(by right; right; left))). done.
Qed.

(** X10: when the blob is delivered from the descriptor, each of
    Content-Type, Content-Length and Docker-Content-Digest that was absent
    or empty before holds the descriptor's media type, the decimal of the
    descriptor's size and the descriptor's digest, in that order. *)
Theorem empty_headers_filled_from_descriptor bs r dgst h key :
  let out := ServeBlob ParseAccept newFileReader bs r dgst h in
  valueOf (negotiationPhase ParseAccept newFileReader bs r dgst h) = None ->
  served (traceOf out) ->
  In key outerHeaders ->
  Header_Get h key = "" ->
  exists desc,
    statter bs dgst = Ok desc /\
    headerOf out !! key = Some [descriptorValue desc key].
Proof.
  intros out Hneg Hserved Hkey Hget. subst out.
  destruct (ServeBlob_outcome ParseAccept newFileReader bs r dgst h)
    as [pre enc path stat br Hneg' Hq Hin Hst Hop
       |pre desc path br Hneg' Hq Hst Hpath Hop
       |pre path size e Hneg' Hq Hop
       |pre err Hneg' Hq]; cbn in Hserved |- *.
  - by rewrite Hneg in Hneg'.
  - exists desc. split; [done|].
    rewrite canonicalHeaders_lookup_outer by done. by rewrite decide_True.
  - exfalso. destruct Hserved as (name & modtime & br & Hin).
    apply in_app_or in Hin as [Hin|[Heq|[]]]; [|discriminate].
    rewrite List.Forall_forall in Hq. exact (Hq _ Hin).
  - exfalso. by apply (quiet_not_served pre).
Qed.

(** X11: the Content-Length of a served response is the decimal of the
    size the reader was opened with, always for a negotiated variant and,
    for delivery from the descriptor, whenever no Content-Length was set
    before. *)
Theorem content_length_is_reader_size bs r dgst h :
  let out := ServeBlob ParseAccept newFileReader bs r dgst h in
  served (traceOf out) ->
  valueOf (negotiationPhase ParseAccept newFileReader bs r dgst h) = Some None \/
    Header_Get h "Content-Length" = "" ->
  exists path size,
    In (EvNewFileReader path size) (traceOf out) /\
    headerOf out !! "Content-Length" = Some [Sprint size].
Proof.
  intros out Hserved Hcond. subst out.
  destruct (ServeBlob_outcome ParseAccept newFileReader bs r dgst h)
    as [pre enc path stat br Hneg Hq Hin Hst Hop
       |pre desc path br Hneg Hq Hst Hpath Hop
       |pre path size e Hneg Hq Hop
       |pre err Hneg Hq]; cbn in Hserved |- *.
  - exists path, (fi_Size stat). split.
    + apply in_or_app. right. by left.
    + apply variantHeaders_lookups.
  - destruct Hcond as [Hcond|Hget]; [by rewrite Hneg in Hcond|].
    exists path, (desc_Size desc). split.
    + apply in_or_app. right. by left.
    + rewrite canonicalHeaders_lookup_outer by (right; by left).
      by rewrite decide_True.
  - exfalso. destruct Hserved as (name & modtime & br & Hin).
    apply in_app_or in Hin as [Hin|[Heq|[]]]; [|discriminate].
    rewrite List.Forall_forall in Hq. exact (Hq _ Hin).
  - exfalso. by apply (quiet_not_served pre).
Qed.

(** X12: without the transport-compression opt-in the [Accept-Encoding]
    header plays no part: [ServeBlob] gives the same result whatever the
    header parses to, it is delivery from the descriptor, and the driver
    is never asked to [Stat] a path. *)
Theorem without_opt_in_no_negotiation bs r dgst h
    (ParseAccept' : Header -> string -> list AcceptSpec) :
  Header_Get (req_Header r) "Docker-Transport-Compression" <> "enabled" ->
  let out := ServeBlob ParseAccept newFileReader bs r dgst h in
  out = ServeBlob ParseAccept' newFileReader bs r dgst h /\
  out = serveCanonical newFileReader bs r dgst h /\
  forall path, ~ In (EvDriverStat path) (traceOf out).
Proof.
  intros Hoff out. subst out.
  assert (Hrun : forall PA,
            ServeBlob PA newFileReader bs r dgst h
            = serveCanonical newFileReader bs r dgst h).
  { intros PA. rewrite ServeBlob_run, negotiationPhase_run. cbv zeta.
    rewrite decide_False by done. cbn.
    by destruct (serveCanonical _ _ _ _ _) as [[??]?]. }
  rewrite !Hrun. split; [done|]. split; [done|]. intros path Hin.
  destruct (serveCanonical_cases bs r dgst h)
    as [e' Hst|desc e' Hst Hp|desc p url Hst Hp Hr Hu
       |desc p e' Hst Hp Hr Hu Hun|desc p e' Hst Hp Hft Hop
       |desc p br Hst Hp Hft Hop]; cbn in Hin;
    unfold urlForCall in Hin; try destruct (redirect bs);
    cbn in Hin; in_cases Hin.
Qed.

Lemma negotiate_stats_in_candidates bs dgst accepted path h p :
  In (EvDriverStat p) (traceOf (negotiate newFileReader bs dgst accepted path h)) ->
  In p (candidates path accepted).
Proof.
  revert path. induction accepted as [|enc accepted IH]; intros path Hin.
  - destruct Hin.
  - rewrite negotiate_cons in Hin. cbv zeta in Hin. cbn [candidates].
    fold (sibling path (Value enc)).
    destruct (drv_Stat _ _) as [stat|e].
    + rewrite serveVariant_run in Hin.
      destruct (newFileReader _ _ _); cbn in Hin; in_cases Hin;
        left; by inversion Hin.
    + destruct (isNotFound e); cbn in Hin.
      * destruct Hin as [Heq|Hin]; [left; by inversion Heq|].
        right. by apply IH.
      * in_cases Hin. left. by inversion Hin.
Qed.

(** X13: when no value of the parsed [Accept-Encoding] list contains a
    path separator, every path [ServeBlobContent] stats is the sibling
    [data.<value>] of the canonical path for a value of the list, and it
    lies in the directory of the canonical path. *)
Theorem stats_stay_beside_canonical_path bs r dgst h canonical p :
  pathFn bs dgst = Ok canonical ->
  Forall (fun enc => noSeparator (Value enc) = true)
    (ParseAccept (req_Header r) "Accept-Encoding") ->
  In (EvDriverStat p)
     (traceOf (ServeBlobContent ParseAccept newFileReader bs r dgst h)) ->
  filepath.Dir p = filepath.Dir canonical /\
  exists enc,
    In enc (ParseAccept (req_Header r) "Accept-Encoding") /\
    p = filepath.Join [filepath.Dir canonical; "data." +:+ Value enc].
Proof.
  intros Hpath Hsep Hin. rewrite ServeBlobContent_run, Hpath in Hin.
  apply negotiate_stats_in_candidates in Hin.
  rewrite candidates_siblings in Hin by done.
  apply in_map_iff in Hin as (enc & <- & Henc). split.
  - apply Dir_sibling. rewrite List.Forall_forall in Hsep. by apply Hsep.
  - by exists enc.
Qed.

(** The header map a call finds decides nothing but the header map it
    leaves: the calls and the result are fixed by the other inputs, and
    the headers are left alone, filled from a descriptor, or set for a
    variant. *)
Lemma negotiate_uniform bs dgst accepted path :
  (exists t v, forall h,
     negotiate newFileReader bs dgst accepted path h = (h, t, v)) \/
  (exists size enc t, forall h,
     negotiate newFileReader bs dgst accepted path h
     = (variantHeaders dgst size enc h, t, (true, None))).
Proof.
  revert path. induction accepted as [|enc accepted IH]; intros path.
  - left. by eexists _, _.
  - destruct (drv_Stat (driver bs) (sibling path (Value enc)))
      as [stat|e] eqn:Hstat.
    + destruct (newFileReader (driver bs) (sibling path (Value enc))
                  (fi_Size stat)) as [br|e] eqn:Hopen.
      * right. eexists _, _, _. intros h.
        rewrite negotiate_cons. cbv zeta.
        rewrite Hstat, serveVariant_run, Hopen. cbn. reflexivity.
      * left. eexists _, _. intros h.
        rewrite negotiate_cons. cbv zeta.
        rewrite Hstat, serveVariant_run, Hopen. cbn. reflexivity.
    + destruct (isNotFound e) eqn:Hnf.
      * destruct (IH (sibling path (Value enc)))
          as [(t & v & Hrun)|(size & enc' & t & Hrun)].
        -- left. eexists _, _. intros h.
           rewrite negotiate_cons. cbv zeta. rewrite Hstat, Hnf, Hrun. cbn. reflexivity.
        -- right. eexists _, _, _. intros h.
           rewrite negotiate_cons. cbv zeta. rewrite Hstat, Hnf, Hrun. cbn. reflexivity.
      * left. eexists _, _. intros h.
        rewrite negotiate_cons. cbv zeta. rewrite Hstat, Hnf. reflexivity.
Qed.

Lemma serveCanonical_uniform bs r dgst :
  (exists t v, forall h,
     serveCanonical newFileReader bs r dgst h = (h, t, v)) \/
  (exists desc t, forall h,
     serveCanonical newFileReader bs r dgst h
     = (canonicalHeaders desc h, t, None)).
Proof.
  destruct (statter bs dgst) as [desc|e] eqn:Hstat.
  2: { left. eexists _, _. intros h. by rewrite serveCanonical_run, Hstat. }
  destruct (pathFn bs (desc_Digest desc)) as [path|e] eqn:Hpath.
  2: { left. eexists _, _. intros h.
       by rewrite serveCanonical_run, Hstat, Hpath. }
  assert (Hstream : forall t1,
    (exists t v, forall h,
       (let o2 := streamBlob newFileReader bs desc path h in
        (headerOf o2, EvStatterStat dgst :: t1 ++ traceOf o2, valueOf o2))
       = (h, t, v)) \/
    (exists t, forall h,
       (let o2 := streamBlob newFileReader bs desc path h in
        (headerOf o2, EvStatterStat dgst :: t1 ++ traceOf o2, valueOf o2))
       = (canonicalHeaders desc h, t, None))).
  { intros t1.
    destruct (newFileReader (driver bs) path (desc_Size desc))
      as [br|e] eqn:Hopen.
    - right. eexists. intros h. cbv zeta. rewrite streamBlob_run, Hopen.
      unfold headerOf, traceOf, valueOf. cbn [fst snd]. reflexivity.
    - left. eexists _, _. intros h. cbv zeta. rewrite streamBlob_run, Hopen.
      unfold headerOf, traceOf, valueOf. cbn [fst snd]. reflexivity. }
  assert (Hfall : forall t1,
    (forall h, redirectPhase bs r path h = (h, t1, None)) ->
    (exists t v, forall h,
       serveCanonical newFileReader bs r dgst h = (h, t, v)) \/
    (exists desc t, forall h,
       serveCanonical newFileReader bs r dgst h
       = (canonicalHeaders desc h, t, None))).
  { intros t1 Hred. destruct (Hstream t1) as [(t & v & Hrun)|(t & Hrun)].
    - left. exists t, v. intros h. rewrite <- Hrun.
      rewrite serveCanonical_run, Hstat, Hpath. cbv zeta.
      by rewrite Hred.
    - right. exists desc, t. intros h. rewrite <- Hrun.
      rewrite serveCanonical_run, Hstat, Hpath. cbv zeta.
      by rewrite Hred. }
  destruct (redirect bs) eqn:Hred.
  - destruct (drv_URLFor (driver bs) path {["method" := req_Method r]})
      as [url|[name|p name|msg]] eqn:Hurl.
    + left. eexists _, _. intros h.
      rewrite serveCanonical_run, Hstat, Hpath, redirectPhase_run, Hred.
      cbv zeta. rewrite Hurl.
      unfold headerOf, traceOf, valueOf. cbn [fst snd]. reflexivity.
    + eapply Hfall. intros h. rewrite redirectPhase_run, Hred. cbv zeta.
      by rewrite Hurl.
    + left. eexists _, _. intros h.
      rewrite serveCanonical_run, Hstat, Hpath, redirectPhase_run, Hred.
      cbv zeta. rewrite Hurl.
      unfold headerOf, traceOf, valueOf. cbn [fst snd]. reflexivity.
    + left. eexists _, _. intros h.
      rewrite serveCanonical_run, Hstat, Hpath, redirectPhase_run, Hred.
      cbv zeta. rewrite Hurl.
      unfold headerOf, traceOf, valueOf. cbn [fst snd]. reflexivity.
  - eapply Hfall. intros h. by rewrite redirectPhase_run, Hred.
Qed.

Lemma ServeBlob_uniform bs r dgst :
  (exists t v, forall h,
     ServeBlob ParseAccept newFileReader bs r dgst h = (h, t, v)) \/
  (exists desc t, forall h,
     ServeBlob ParseAccept newFileReader bs r dgst h
     = (canonicalHeaders desc h, t, None)) \/
  (exists size enc t, forall h,
     ServeBlob ParseAccept newFileReader bs r dgst h
     = (variantHeaders dgst size enc h, t, None)).
Proof.
  assert (Hcan : forall stats,
    (exists t v, forall h,
       (let can := serveCanonical newFileReader bs r dgst h in
        (headerOf can, stats ++ traceOf can, valueOf can)) = (h, t, v)) \/
    (exists desc t, forall h,
       (let can := serveCanonical newFileReader bs r dgst h in
        (headerOf can, stats ++ traceOf can, valueOf can))
       = (canonicalHeaders desc h, t, None))).
  { intros stats. destruct (serveCanonical_uniform bs r dgst)
      as [(t & v & Hrun)|(desc & t & Hrun)].
    - left. eexists _, _. intros h. cbv zeta. rewrite Hrun.
      unfold headerOf, traceOf, valueOf. cbn [fst snd]. reflexivity.
    - right. eexists _, _. intros h. cbv zeta. rewrite Hrun.
      unfold headerOf, traceOf, valueOf. cbn [fst snd]. reflexivity. }
  destruct (decide (Header_Get (req_Header r) "Docker-Transport-Compression"
                    = "enabled")) as [Hen|Hen].
  2: { destruct (Hcan []) as [(t & v & Hrun)|(desc & t & Hrun)].
       - left. exists t, v. intros h. rewrite <- Hrun.
         rewrite ServeBlob_run, negotiationPhase_run. cbv zeta.
         by rewrite decide_False by done.
       - right. left. exists desc, t. intros h. rewrite <- Hrun.
         rewrite ServeBlob_run, negotiationPhase_run. cbv zeta.
         by rewrite decide_False by done. }
  destruct (pathFn bs dgst) as [path|e] eqn:Hpath.
  2: { left. eexists _, _. intros h.
       rewrite ServeBlob_run, negotiationPhase_run. cbv zeta.
       rewrite decide_True by done. rewrite ServeBlobContent_run, Hpath.
       cbn. reflexivity. }
  destruct (negotiate_uniform bs dgst
              (ParseAccept (req_Header r) "Accept-Encoding") path)
    as [(t & [found err] & Hrun)|(size & enc & t & Hrun)].
  - destruct (earlyReturn (found, err)) as [err'|] eqn:Hearly.
    + left. exists t, err'. intros h.
      rewrite ServeBlob_run, negotiationPhase_run. cbv zeta.
      rewrite decide_True by done.
      rewrite ServeBlobContent_run, Hpath, Hrun. cbn [valueOf snd].
      by rewrite Hearly.
    + destruct (Hcan t) as [(t' & v & Hrun')|(desc & t' & Hrun')].
      * left. exists t', v. intros h. rewrite <- Hrun'.
        rewrite ServeBlob_run, negotiationPhase_run. cbv zeta.
        rewrite decide_True by done.
        rewrite ServeBlobContent_run, Hpath, Hrun. cbn [valueOf snd].
        by rewrite Hearly.
      * right. left. exists desc, t'. intros h. rewrite <- Hrun'.
        rewrite ServeBlob_run, negotiationPhase_run. cbv zeta.
        rewrite decide_True by done.
        rewrite ServeBlobContent_run, Hpath, Hrun. cbn [valueOf snd].
        by rewrite Hearly.
  - right. right. exists size, enc, t. intros h.
    rewrite ServeBlob_run, negotiationPhase_run. cbv zeta.
    rewrite decide_True by done.
    rewrite ServeBlobContent_run, Hpath, Hrun. reflexivity.
Qed.

(** X14: the response headers present when [ServeBlob] is called have no
    influence on which collaborators it calls, in which order, or on what
    it returns. *)
Theorem headers_do_not_steer bs r dgst h h' :
  traceOf (ServeBlob ParseAccept newFileReader bs r dgst h)
  = traceOf (ServeBlob ParseAccept newFileReader bs r dgst h') /\
  valueOf (ServeBlob ParseAccept newFileReader bs r dgst h)
  = valueOf (ServeBlob ParseAccept newFileReader bs r dgst h').
Proof.
  destruct (ServeBlob_uniform bs r dgst)
    as [(t & v & Hrun)|[(desc & t & Hrun)|(size & enc & t & Hrun)]];
    by rewrite !Hrun.
Qed.

Lemma canonicalHeaders_lookup_other desc h key :
  key <> "ETag" -> key <> "Cache-Control" -> ~ In key outerHeaders ->
  canonicalHeaders desc h !! key = h !! key.
Proof.
  intros H1 H2 H3. unfold canonicalHeaders.
  assert (key <> "Content-Type" /\ key <> "Content-Length" /\
          key <> "Docker-Content-Digest") as (?&?&?).
  { repeat split; intros ->; apply H3; cbn; tauto. }
  rewrite !setIfEmpty_lookup_ne by done.
  by rewrite !Header_Set_lookup_ne by done.
Qed.

Lemma canonicalHeaders_idempotent desc h :
  canonicalHeaders desc (canonicalHeaders desc h) = canonicalHeaders desc h.
Proof.
  apply map_eq. intros key.
  destruct (decide (key = "ETag")) as [->|HE];
    [by rewrite !canonicalHeaders_ETag|].
  destruct (decide (key = "Cache-Control")) as [->|HC];
    [by rewrite !canonicalHeaders_CacheControl|].
  destruct (decide (In key outerHeaders)) as [Hin|Hout].
  - rewrite (canonicalHeaders_lookup_outer desc (canonicalHeaders desc h))
      by done.
    case_decide as Hget; [|done]. unfold Header_Get in Hget.
    rewrite canonicalHeaders_lookup_outer in Hget |- * by done.
    case_decide as Hget'.
    + by rewrite Hget.
    + unfold Header_Get in Hget'. by destruct (h !! key) as [[|??]|].
  - by rewrite !canonicalHeaders_lookup_other by done.
Qed.

Lemma variantHeaders_lookup dgst size enc h key :
  variantHeaders dgst size enc h !! key =
    if decide (key = "Content-Encoding") then Some [Value enc]
    else if decide (key = "Content-Length") then Some [Sprint size]
    else if decide (key = "Content-Type") then Some ["application/octet-stream"]
    else if decide (key = "Cache-Control") then Some [cacheControl]
    else if decide (key = "ETag") then Some [Digest_String dgst]
    else h !! key.
Proof.
  unfold variantHeaders, Header_Set.
  repeat (case_decide; [subst; by rewrite ?lookup_insert_eq
                       |rewrite lookup_insert_ne by done]).
  done.
Qed.

Lemma variantHeaders_idempotent dgst size enc h :
  variantHeaders dgst size enc (variantHeaders dgst size enc h)
  = variantHeaders dgst size enc h.
Proof.
  apply map_eq. intros key. rewrite !variantHeaders_lookup.
  by repeat case_decide.
Qed.

(** X15: the header writes of [ServeBlob] are idempotent: a second call
    with the same arguments, made on the header map the first call left,
    leaves that map as it is. *)
Theorem header_writes_idempotent bs r dgst h :
  let h1 := headerOf (ServeBlob ParseAccept newFileReader bs r dgst h) in
  headerOf (ServeBlob ParseAccept newFileReader bs r dgst h1) = h1.
Proof.
  intros h1. subst h1.
  destruct (ServeBlob_uniform bs r dgst)
    as [(t & v & Hrun)|[(desc & t & Hrun)|(size & enc & t & Hrun)]];
    rewrite !Hrun; unfold headerOf; cbn [fst].
  - done.
  - apply canonicalHeaders_idempotent.
  - apply variantHeaders_idempotent.
Qed.


(** X17: every reader [ServeBlob] opens is opened either, during
    negotiation, on a path whose [Stat] succeeded and with the size that
    [Stat] reported, or on the path the path function gives for the
    digest of the descriptor and with the descriptor's size. *)
Theorem reader_opened_on_known_blob bs r dgst h path size :
  In (EvNewFileReader path size)
     (traceOf (ServeBlob ParseAccept newFileReader bs r dgst h)) ->
  (Header_Get (req_Header r) "Docker-Transport-Compression" = "enabled" /\
   exists stat, drv_Stat (driver bs) path = Ok stat /\ size = fi_Size stat) \/
  (exists desc,
     statter bs dgst = Ok desc /\
     pathFn bs (desc_Digest desc) = Ok path /\
     size = desc_Size desc).
Proof.
  intros Hin. split_ServeBlob bs r dgst h.
  - clear Hcan. left. split; [done|].
    destruct Hsbc as [stats Hs|stats e' Hs
                      |stats p stat e' Hs Hst Hop
                      |stats enc p stat br Hs Hacc Hst Hop]; cbn in Hin;
      try (rewrite List.Forall_forall in Hs; by destruct (Hs _ Hin) as [? ?]);
      destruct (in_stats_app _ _ _ Hs Hin) as [[? ?]|Hin']; try discriminate;
      cbn in Hin'; in_cases Hin'; inversion Hin'; subst; by exists stat.
  - clear Hsbc. right. cbn in Hin.
    destruct (in_stats_app _ _ _ Hs Hin) as [[? ?]|Hin']; [discriminate|].
    clear Hin. destruct Hcan
      as [e' Hst|desc e' Hst Hp|desc p url Hst Hp Hr Hu
         |desc p e' Hst Hp Hr Hu Hun|desc p e' Hst Hp Hft Hop
         |desc p br Hst Hp Hft Hop]; cbn in Hin';
      unfold urlForCall in Hin'; try destruct (redirect bs);
      cbn in Hin'; in_cases Hin'; inversion Hin'; subst; by exists desc.
Qed.

Lemma Clean_idempotent s : filepath.Clean (filepath.Clean s) = filepath.Clean s.
Proof.
  destruct (Clean_cleanState s) as (rt & st & Hst & ->).
  unfold filepath.Clean at 1.
  rewrite decide_False by by apply render_nonempty.
  by rewrite render_rooted, foldl_step_render.
Qed.

Lemma Clean_nonempty s : filepath.Clean s <> "".
Proof.
  destruct (Clean_cleanState s) as (rt & st & Hst & ->).
  by apply render_nonempty.
Qed.

Lemma sibling_is_clean path token :
  exists s, sibling path token = filepath.Clean s.
Proof.
  unfold sibling, filepath.Join.
  rewrite decide_False by apply Clean_nonempty. by eexists.
Qed.

Lemma candidates_clean path accepted p :
  In p (candidates path accepted) -> exists s, p = filepath.Clean s.
Proof.
  revert path. induction accepted as [|enc accepted IH]; intros path Hin;
    [destruct Hin|].
  cbn [candidates] in Hin. fold (sibling path (Value enc)) in Hin.
  destruct Hin as [<-|Hin]; [apply sibling_is_clean|by eapply IH].
Qed.

(** X18: whatever the [Accept-Encoding] values are (they may hold
    separators or dot-dot elements), every path [ServeBlobContent] asks
    the driver to [Stat] is non-empty and in the form [filepath.Clean]
    gives: cleaning it again changes nothing. *)
Theorem stats_use_cleaned_paths bs r dgst h p :
  In (EvDriverStat p)
     (traceOf (ServeBlobContent ParseAccept newFileReader bs r dgst h)) ->
  p <> "" /\ filepath.Clean p = p.
Proof.
  intros Hin. rewrite ServeBlobContent_run in Hin.
  destruct (pathFn bs dgst) as [path|e]; [|destruct Hin].
  apply negotiate_stats_in_candidates, candidates_clean in Hin as [s ->].
  split; [apply Clean_nonempty|apply Clean_idempotent].
Qed.
End MoreFacts.

(** ** The further properties on the small registry *)

Lemma served_response_cache_control_witness :
  headerOf (ServeBlob (parsed []) openReader (server noURL false) plainGet
              "sha256:abc" {[ "Cache-Control" := ["no-store"] ]})
    !! "Cache-Control"
  = Some ["max-age=31536000"].
Proof.
  refine (served_response_cache_control (parsed []) openReader
            (server noURL false) plainGet "sha256:abc"
            {[ "Cache-Control" := ["no-store"] ]} _).
  eexists _, _, _. vm_compute. right. right. left. reflexivity.
Defined.

Lemma error_leaves_response_untouched_witness :
  let out := ServeBlob (parsed []) openReader (server brokenURL true) plainGet
               "sha256:abc" {[ "X-Request-Id" := ["7"] ]} in
  headerOf out = {[ "X-Request-Id" := ["7"] ]} /\
  ~ served (traceOf out) /\ ~ redirected (traceOf out).
Proof.
  exact (error_leaves_response_untouched (parsed []) openReader
           (server brokenURL true) plainGet "sha256:abc"
           {[ "X-Request-Id" := ["7"] ]} (OtherError "backend unavailable")
           eq_refl).
Defined.

Lemma nil_means_served_or_redirected_witness :
  let out := ServeBlob (parsed []) openReader (server signedURL true) plainGet
               "sha256:abc" ∅ in
  (served (traceOf out) /\ ~ redirected (traceOf out)) \/
  (redirected (traceOf out) /\ ~ served (traceOf out) /\ headerOf out = ∅).
Proof.
  exact (nil_means_served_or_redirected (parsed []) openReader
           (server signedURL true) plainGet "sha256:abc" ∅ eq_refl).
Defined.

Lemma matched_variant_metadata_witness :
  exists enc path stat,
    In enc [zstd; gzip] /\
    drv_Stat (driver (server noURL false)) path = Ok stat /\
    In (EvNewFileReader path (fi_Size stat))
       [EvDriverStat "/blobs/tarsum.v1+sha256:fed/data.zstd";
        EvDriverStat "/blobs/tarsum.v1+sha256:fed/data.gzip";
        EvNewFileReader "/blobs/tarsum.v1+sha256:fed/data.gzip" 3;
        EvHttpServeContent "tarsum.v1+sha256:fed" TimeZero
          (mkFileReader "/blobs/tarsum.v1+sha256:fed/data.gzip" 3);
        EvClose (mkFileReader "/blobs/tarsum.v1+sha256:fed/data.gzip" 3)] /\
    variantHeaders "tarsum.v1+sha256:fed" 3 gzip ∅ !! "Content-Encoding"
    = Some [Value enc] /\
    variantHeaders "tarsum.v1+sha256:fed" 3 gzip ∅ !! "Content-Length"
    = Some [Sprint (fi_Size stat)] /\
    variantHeaders "tarsum.v1+sha256:fed" 3 gzip ∅ !! "Content-Type"
    = Some ["application/octet-stream"].
Proof.
  refine (proj2 (matched_variant_metadata (parsed [zstd; gzip]) openReader
                   (server noURL false) compressedGet "tarsum.v1+sha256:fed" ∅
                   _ _ None _)).
  vm_compute. reflexivity.
Defined.

Lemma redirect_disabled_no_url_witness :
  let t := traceOf (ServeBlob (parsed []) openReader (server signedURL false)
                      plainGet "sha256:abc" ∅) in
  ~ redirected t /\ forall path options, ~ In (EvDriverURLFor path options) t.
Proof.
  exact (redirect_disabled_no_url (parsed []) openReader
           (server signedURL false) plainGet "sha256:abc" ∅ eq_refl).
Defined.

Lemma url_requested_for_descriptor_path_witness :
  redirect (server signedURL true) = true /\
  ({["method" := "GET"]} : Options) = {["method" := req_Method plainGet]} /\
  exists desc,
    statter (server signedURL true) "tarsum.v1+sha256:fed" = Ok desc /\
    pathFn (server signedURL true) (desc_Digest desc)
    = Ok "/blobs/sha256:abc/data".
Proof.
  refine (url_requested_for_descriptor_path (parsed []) openReader
            (server signedURL true) plainGet "tarsum.v1+sha256:fed" ∅
            "/blobs/sha256:abc/data" {["method" := "GET"]} _).
  vm_compute. right. left. reflexivity.
Defined.

Lemma close_only_what_was_opened_witness :
  let t := traceOf (ServeBlob (parsed []) openReader (server noURL false)
                      plainGet "sha256:abc" ∅) in
  exists pre path size name,
    openReader (driver (server noURL false)) path size
    = Ok (mkFileReader "/blobs/sha256:abc/data" 5) /\
    Forall quiet pre /\
    t = pre ++ [EvNewFileReader path size;
                EvHttpServeContent name TimeZero
                  (mkFileReader "/blobs/sha256:abc/data" 5);
                EvClose (mkFileReader "/blobs/sha256:abc/data" 5)].
Proof.
  refine (close_only_what_was_opened (parsed []) openReader
            (server noURL false) plainGet "sha256:abc" ∅
            (mkFileReader "/blobs/sha256:abc/data" 5) _).
  vm_compute. right. right. right. left. reflexivity.
Defined.

Lemma no_match_then_canonical_witness :
  ServeBlob (parsed [brotli]) openReader (server noURL false) compressedGet
    "sha256:abc" ∅
  = (let can := serveCanonical openReader (server noURL false) compressedGet
                  "sha256:abc" ∅ in
     (headerOf can,
      [EvDriverStat "/blobs/sha256:abc/data.br"] ++ traceOf can,
      valueOf can)).
Proof.
  refine (proj2 (proj2 (no_match_then_canonical (parsed [brotli]) openReader
                          (server noURL false) compressedGet "sha256:abc" ∅
                          ∅ [EvDriverStat "/blobs/sha256:abc/data.br"]
                          eq_refl _))).
  vm_compute. reflexivity.
Defined.

Lemma empty_headers_filled_from_descriptor_witness :
  exists desc,
    statter (server noURL false) "sha256:abc" = Ok desc /\
    headerOf (ServeBlob (parsed []) openReader (server noURL false) plainGet
                "sha256:abc" ∅) !! "Content-Type"
    = Some [descriptorValue desc "Content-Type"].
Proof.
  refine (empty_headers_filled_from_descriptor (parsed []) openReader
            (server noURL false) plainGet "sha256:abc" ∅ "Content-Type"
            eq_refl _ _ eq_refl).
  - eexists _, _, _. vm_compute. right. right. left. reflexivity.
  - left. reflexivity.
Defined.

Lemma content_length_is_reader_size_witness :
  let out := ServeBlob (parsed []) openReader (server noURL false) plainGet
               "sha256:abc" ∅ in
  exists path size,
    In (EvNewFileReader path size) (traceOf out) /\
    headerOf out !! "Content-Length" = Some [Sprint size].
Proof.
  refine (content_length_is_reader_size (parsed []) openReader
            (server noURL false) plainGet "sha256:abc" ∅ _ _).
  - eexists _, _, _. vm_compute. right. right. left. reflexivity.
  - right. reflexivity.
Defined.

Lemma without_opt_in_no_negotiation_witness :
  let out := ServeBlob (parsed []) openReader (server noURL false) plainGet
               "sha256:abc" ∅ in
  out = ServeBlob (parsed [gzip]) openReader (server noURL false) plainGet
          "sha256:abc" ∅ /\
  out = serveCanonical openReader (server noURL false) plainGet "sha256:abc" ∅ /\
  forall path, ~ In (EvDriverStat path) (traceOf out).
Proof.
  refine (without_opt_in_no_negotiation (parsed []) openReader
            (server noURL false) plainGet "sha256:abc" ∅ (parsed [gzip]) _).
  vm_compute. discriminate.
Defined.

Lemma stats_stay_beside_canonical_path_witness :
  filepath.Dir "/blobs/sha256:abc/data.gzip"
  = filepath.Dir "/blobs/sha256:abc/data" /\
  exists enc,
    In enc [brotli; gzip] /\
    "/blobs/sha256:abc/data.gzip"
    = filepath.Join [filepath.Dir "/blobs/sha256:abc/data";
                     "data." +:+ Value enc].
Proof.
  refine (stats_stay_beside_canonical_path (parsed [brotli; gzip]) openReader
            (server noURL false) compressedGet "sha256:abc" ∅
            "/blobs/sha256:abc/data" "/blobs/sha256:abc/data.gzip"
            eq_refl _ _).
  - repeat constructor.
  - vm_compute. right. left. reflexivity.
Defined.


Lemma reader_opened_on_known_blob_witness :
  (Header_Get (req_Header plainGet) "Docker-Transport-Compression" = "enabled" /\
   exists stat,
     drv_Stat (driver (server noURL false)) "/blobs/sha256:abc/data" = Ok stat /\
     5 = fi_Size stat) \/
  (exists desc,
     statter (server noURL false) "tarsum.v1+sha256:fed" = Ok desc /\
     pathFn (server noURL false) (desc_Digest desc)
     = Ok "/blobs/sha256:abc/data" /\
     5 = desc_Size desc).
Proof.
  refine (reader_opened_on_known_blob (parsed []) openReader
            (server noURL false) plainGet "tarsum.v1+sha256:fed" ∅
            "/blobs/sha256:abc/data" 5 _).
  vm_compute. right. left. reflexivity.
Defined.

Lemma stats_use_cleaned_paths_witness :
  "/blobs/sha256:abc/data.x/data.gzip" <> "" /\
  filepath.Clean "/blobs/sha256:abc/data.x/data.gzip"
  = "/blobs/sha256:abc/data.x/data.gzip".
Proof.
  refine (stats_use_cleaned_paths
            (parsed [mkAcceptSpec "x/y" 1; gzip]) openReader
            (server noURL false) compressedGet "sha256:abc" ∅
            "/blobs/sha256:abc/data.x/data.gzip" _).
  vm_compute. right. left. reflexivity.
Defined.
